(** * The CoNLL-U cleaning utility ([scripts/clean_conllu.py])

    A shallow embedding of the sentence validator [CoNLLUValidator] and of
    the streaming driver [clean_conllu_file], followed by the properties of
    the specification that concern them.

    Conventions of the embedding.
    - A Python [str] is a [string]: a sequence of characters, each the code
      point of one character, for code points below 256.  Text outside that
      range is not covered.
    - A Python [int] is a [Z]; a [list] is a [list]; the [dict] and the
      [set]s of the validator are [gmap Z Z] and [gset Z].
    - The attribute [self.errors] is the field [errors] of the record
      [CoNLLUValidator]; a method takes the object and returns it with its
      result.
    - A file is its text.  Reading applies the universal-newline
      translation of text mode; writing is verbatim (the line separator of
      the platform is the line feed). *)

From Stdlib Require Import ZArith String Ascii List Lia DecimalString.
From Stdlib Require Import Floats.SpecFloat.
From stdpp Require Import base tactics option list relations gmap strings.

Local Open Scope Z_scope.
Local Open Scope string_scope.

(** ** Python string operations used by the script *)

Module Py.

Definition tab : ascii := "009"%char.
Definition nl : ascii := "010"%char.
Definition cr : ascii := "013"%char.

(** [str.isspace] on one character, for code points below 256. *)
Definition isspace (c : ascii) : bool :=
  let n := N_of_ascii c in
  ((9 <=? n) && (n <=? 13) || (28 <=? n) && (n <=? 32)
   || (n =? 133) || (n =? 160))%N.

(** The white space [int()] skips: the C locale's below 127, the Unicode
    one above. *)
Definition int_space (c : ascii) : bool :=
  let n := N_of_ascii c in
  ((9 <=? n) && (n <=? 13) || (n =? 32) || (n =? 133) || (n =? 160))%N.

Definition digit_value (c : ascii) : option Z :=
  let n := N_of_ascii c in
  if ((48 <=? n) && (n <=? 57))%N then Some (Z.of_N n - 48) else None.

(** [c in s] for a one-character [c]. *)
Fixpoint contains (c : ascii) (s : string) : bool :=
  match s with
  | EmptyString => false
  | String a r => if decide (a = c) then true else contains c r
  end.

(** [s.split(sep)] for a one-character separator. *)
Fixpoint split (sep : ascii) (s : string) : list string :=
  match s with
  | EmptyString => [""]
  | String a r =>
      if decide (a = sep) then "" :: split sep r
      else match split sep r with
           | f :: fs => String a f :: fs
           | [] => [String a ""]
           end
  end.

(** [s.split(sep, 1)[1]]: what follows the first separator. *)
Fixpoint after_first (sep : ascii) (s : string) : option string :=
  match s with
  | EmptyString => None
  | String a r => if decide (a = sep) then Some r else after_first sep r
  end.

Fixpoint lstrip (s : string) : string :=
  match s with
  | String a r => if isspace a then lstrip r else s
  | EmptyString => ""
  end.

Fixpoint rstrip (s : string) : string :=
  match s with
  | EmptyString => ""
  | String a r =>
      match rstrip r with
      | EmptyString => if isspace a then "" else String a ""
      | r' => String a r'
      end
  end.

Definition strip (s : string) : string := rstrip (lstrip s).

(** [s.rstrip('\n')]. *)
Fixpoint rstrip_nl (s : string) : string :=
  match s with
  | EmptyString => ""
  | String a r =>
      match rstrip_nl r with
      | EmptyString => if decide (a = nl) then "" else String a ""
      | r' => String a r'
      end
  end.

Fixpoint startswith (p s : string) : bool :=
  match p, s with
  | EmptyString, _ => true
  | String a p', String b s' => if decide (a = b) then startswith p' s' else false
  | String _ _, EmptyString => false
  end.

(** [sep.join(l)]. *)
Fixpoint join (sep : string) (l : list string) : string :=
  match l with
  | [] => ""
  | [x] => x
  | x :: r => x ++ sep ++ join sep r
  end.

(** [str(n)] for an integer.  The integers the script prints are line
    numbers, counts, and ids and heads that [int] accepted, so none exceeds
    the digit limit of the conversion. *)
Definition str (n : Z) : string := NilZero.string_of_int (Z.to_int n).

(** [repr] of a list of integers, as an f-string prints it. *)
Definition repr_list (l : list Z) : string :=
  "[" ++ join ", " (map str l) ++ "]".

(** *** [int(s)]

    Optional white space, an optional sign, decimal digits in which single
    underscores may separate digits, optional white space.  More than
    [max_str_digits] digits are refused.  [None] is [ValueError]. *)

Definition max_str_digits : N := 4300.

Fixpoint skip_int_space (s : string) : string :=
  match s with
  | String a r => if int_space a then skip_int_space r else s
  | EmptyString => ""
  end.

Fixpoint scan_digits (acc : Z) (digits : N) (prev_us : bool) (s : string)
  : option (Z * N * string) :=
  match s with
  | EmptyString => if prev_us then None else Some (acc, digits, "")
  | String a r =>
      match digit_value a with
      | Some d => scan_digits (acc * 10 + d) (digits + 1) false r
      | None =>
          if decide (a = "_"%char)
          then (if prev_us then None else scan_digits acc digits true r)
          else (if prev_us then None else Some (acc, digits, s))
      end
  end.

Definition int_unsigned (s : string) : option Z :=
  match s with
  | String "_" _ => None
  | _ =>
      match scan_digits 0 0 false s with
      | Some (v, digits, rest) =>
          if (digits =? 0)%N then None
          else if (max_str_digits <? digits)%N then None
          else match skip_int_space rest with
               | EmptyString => Some v
               | _ => None
               end
      | None => None
      end
  end.

Definition int (s : string) : option Z :=
  match skip_int_space s with
  | String "+" r => int_unsigned r
  | String "-" r => Z.opp <$> int_unsigned r
  | s' => int_unsigned s'
  end.

(** [enumerate(l, start)]. *)
Fixpoint enumerate {A} (start : Z) (l : list A) : list (Z * A) :=
  match l with
  | [] => []
  | x :: r => (start, x) :: enumerate (start + 1) r
  end.

End Py.

(** ** The validator *)

Module Token.
(** The dict built for each structural line. *)
Record t := mk {
  id : Z;
  form : string;
  lemma : string;
  upos : string;
  head : Z;
  deprel : string;
  line_num : Z
}.
End Token.

Record CoNLLUValidator := { errors : list string }.

(** [CoNLLUValidator()] *)
Definition __init__ : CoNLLUValidator := {| errors := [] |}.

(** [self.errors.append(msg)] *)
Definition errors_append (msg : string) (self : CoNLLUValidator) : CoNLLUValidator :=
  {| errors := errors self ++ [msg] |}.

Definition get_errors (self : CoNLLUValidator) : list string := errors self.

(** *** [_check_no_cycles] *)

(** [{t['id']: t['head'] for t in tokens}]: a later token overrides an
    earlier one with the same id. *)
Definition token_heads_of (tokens : list Token.t) : gmap Z Z :=
  foldl (λ m t, <[Token.id t := Token.head t]> m) ∅ tokens.

(** The [while] loop from one start token.  [Some true]: the loop ended
    (reached 0 or left the dict); [Some false]: [return False]; [None]: the
    fuel ran out ([while_loop_terminates] shows it never does for the fuel
    [_check_no_cycles] gives). *)
Fixpoint while_loop (fuel : nat) (token_heads : gmap Z Z) (visited : gset Z)
    (current : Z) : option bool :=
  match fuel with
  | O => None
  | S fuel' =>
      if decide (current = 0) then Some true
      else match token_heads !! current with
           | None => Some true
           | Some h =>
               if decide (current ∈ visited) then Some false
               else while_loop fuel' token_heads ({[current]} ∪ visited) h
           end
  end.

(** The [for start_token in tokens] loop, with its early [return False]. *)
Fixpoint for_start (fuel : nat) (token_heads : gmap Z Z) (starts : list Token.t)
    : option bool :=
  match starts with
  | [] => Some true
  | start_token :: rest =>
      match while_loop fuel token_heads ∅ (Token.id start_token) with
      | Some true => for_start fuel token_heads rest
      | r => r
      end
  end.

Definition _check_no_cycles (tokens : list Token.t) : bool :=
  let token_heads := token_heads_of tokens in
  match for_start (S (size token_heads)) token_heads tokens with
  | Some b => b
  | None => false
  end.

(** *** [validate_sentence] *)

(** The local variables of [validate_sentence], with the object. *)
Record Frame := {
  this : CoNLLUValidator;
  tokens : list Token.t;
  roots : list Z;
  token_ids : gset Z
}.

Definition frame_error (msg : string) (f : Frame) : Frame :=
  {| this := errors_append msg (this f); tokens := tokens f;
     roots := roots f; token_ids := token_ids f |}.

Definition msg_field_count (line_num : Z) (n : nat) : string :=
  "Line " ++ Py.str line_num ++ ": Expected 10 fields, got " ++ Py.str (Z.of_nat n).

Definition msg_invalid_int (line_num : Z) (token_id head : string) : string :=
  "Line " ++ Py.str line_num ++ ": Invalid token ID or head: " ++ token_id ++ ", " ++ head.

Definition msg_empty_sentence : string := "Empty sentence".
Definition msg_no_root : string := "No root found (no token with head=0)".

Definition msg_multiple_roots (roots : list Z) : string :=
  "Multiple roots found: tokens " ++ Py.repr_list roots ++ " all have head=0".

Definition msg_invalid_head (id head : Z) : string :=
  "Token " ++ Py.str id ++ " has invalid head " ++ Py.str head.

Definition msg_cycle : string := "Dependency cycle detected".

Definition msg_missing (id : Z) (what : string) : string :=
  "Token " ++ Py.str id ++ ": Empty or missing " ++ what.

(** The body of [for line_num, line in enumerate(sentence_lines, 1)].  The
    outer [except Exception] is never entered: nothing in the body raises
    but [int], whose [ValueError] the inner handler takes. *)
Definition parse_line (f : Frame) (item : Z * string) : Frame :=
  let '(line_num, line) := item in
  let fields := Py.split Py.tab line in
  match fields with
  | [token_id; form; lemma; upos; xpos; feats; head; deprel; deps; misc] =>
      if Py.contains "-" token_id || Py.contains "." token_id then f
      else
        match Py.int token_id, Py.int head with
        | Some token_id_int, Some head_int =>
            {| this := this f;
               tokens := tokens f ++
                 [Token.mk token_id_int form lemma upos head_int deprel line_num];
               roots := if decide (head_int = 0)
                        then roots f ++ [token_id_int] else roots f;
               token_ids := {[token_id_int]} ∪ token_ids f |}
        | _, _ => frame_error (msg_invalid_int line_num token_id head) f
        end
  | _ => frame_error (msg_field_count line_num (length fields)) f
  end.

Definition parse_lines (self0 : CoNLLUValidator) (sentence_lines : list string) : Frame :=
  foldl parse_line
    {| this := self0; tokens := []; roots := []; token_ids := ∅ |}
    (Py.enumerate 1 sentence_lines).

(** [if len(roots) == 0: ... elif len(roots) > 1: ...] *)
Definition check_roots (roots : list Z) (self : CoNLLUValidator) : CoNLLUValidator :=
  match roots with
  | [] => errors_append msg_no_root self
  | [_] => self
  | _ => errors_append (msg_multiple_roots roots) self
  end.

(** [for token in tokens: if token['head'] != 0 and token['head'] not in token_ids] *)
Definition check_heads (token_ids : gset Z) (tokens : list Token.t)
    (self : CoNLLUValidator) : CoNLLUValidator :=
  foldl (λ self token,
           if decide (Token.head token ≠ 0 ∧ Token.head token ∉ token_ids)
           then errors_append (msg_invalid_head (Token.id token) (Token.head token)) self
           else self)
        self tokens.

Definition check_cycles (tokens : list Token.t) (self : CoNLLUValidator) : CoNLLUValidator :=
  if _check_no_cycles tokens then self else errors_append msg_cycle self.

(** [not s or s == '_'] *)
Definition missing (s : string) : bool :=
  bool_decide (s = "") || bool_decide (s = "_").

Definition check_fields_token (self : CoNLLUValidator) (token : Token.t) : CoNLLUValidator :=
  let self := if missing (Token.form token)
              then errors_append (msg_missing (Token.id token) "form") self else self in
  let self := if missing (Token.upos token)
              then errors_append (msg_missing (Token.id token) "UPOS") self else self in
  if missing (Token.deprel token)
  then errors_append (msg_missing (Token.id token) "deprel") self else self.

Definition check_fields (tokens : list Token.t) (self : CoNLLUValidator) : CoNLLUValidator :=
  foldl check_fields_token self tokens.

(** The four checks after the parsing loop, and the verdict. *)
Definition run_checks (f : Frame) : bool * CoNLLUValidator :=
  let self := check_roots (roots f) (this f) in
  let self := check_heads (token_ids f) (tokens f) self in
  let self := check_cycles (tokens f) self in
  let self := check_fields (tokens f) self in
  (bool_decide (length (errors self) = 0%nat), self).

Definition validate_sentence (self : CoNLLUValidator) (sentence_lines : list string)
    (sent_id : option string) : bool * CoNLLUValidator :=
  let self := {| errors := [] |} in
  match sentence_lines with
  | [] => (false, errors_append msg_empty_sentence self)
  | _ => run_checks (parse_lines self sentence_lines)
  end.

(** ** Floating point, for the success rate

    Binary64 values are [spec_float]s with the operations of the standard
    library's specification ([prec] 53, [emax] 1024, round to nearest
    even). *)

Module Float.

Definition prec : Z := 53.
Definition emax : Z := 1024.

Inductive exn := ZeroDivisionError | OverflowError.

(** An integer as an exact, not yet rounded, operand. *)
Definition of_int (n : Z) : spec_float :=
  match n with
  | Z0 => S754_zero false
  | Zpos p => S754_finite false p 0
  | Zneg p => S754_finite true p 0
  end.

(** [a / b] on integers: the correctly rounded quotient. *)
Definition truediv (a b : Z) : exn + spec_float :=
  if decide (b = 0) then inl ZeroDivisionError
  else match SFdiv prec emax (of_int a) (of_int b) with
       | S754_infinity _ => inl OverflowError
       | q => inr q
       end.

(** [x * n] for a float [x] and an integer [n]. *)
Definition mul_int (x : spec_float) (n : Z) : spec_float :=
  SFmul prec emax x (of_int n).

(** The integer nearest to [m * 2^e], ties to even. *)
Definition round_half_even (m e : Z) : Z :=
  if decide (0 <= e) then m * 2 ^ e
  else
    let den := 2 ^ (- e) in
    let q := m / den in
    let r := m mod den in
    match Z.compare (2 * r) den with
    | Lt => q
    | Gt => q + 1
    | Eq => if Z.even q then q else q + 1
    end.

Definition sign_str (s : bool) : string := if s then "-" else "".

(** [format(x, '.1f')]. *)
Definition format_1f (x : spec_float) : string :=
  match x with
  | S754_nan => "nan"
  | S754_infinity s => sign_str s ++ "inf"
  | S754_zero s => sign_str s ++ "0.0"
  | S754_finite s m e =>
      let n := round_half_even (Zpos m * 10) e in
      sign_str s ++ Py.str (n / 10) ++ "." ++ Py.str (n mod 10)
  end.

End Float.

(** ** The streaming driver *)

(** Text-mode reading with [newline=None]: CR LF and CR become LF. *)
Fixpoint universal_newlines (s : string) : string :=
  match s with
  | EmptyString => ""
  | String a r =>
      if decide (a = Py.cr) then
        match r with
        | String b r' =>
            if decide (b = Py.nl) then String Py.nl (universal_newlines r')
            else String Py.nl (universal_newlines r)
        | EmptyString => String Py.nl ""
        end
      else String a (universal_newlines r)
  end.

(** Iterating over a text file: the lines, each with its terminator but
    possibly the last. *)
Fixpoint readlines (s : string) : list string :=
  match s with
  | EmptyString => []
  | String a r =>
      if decide (a = Py.nl) then String a "" :: readlines r
      else match readlines r with
           | l :: ls => String a l :: ls
           | [] => [String a ""]
           end
  end.

(** The local variables of [clean_conllu_file], the text written to
    [outfile] and the lines printed. *)
Record Driver := {
  validator : CoNLLUValidator;
  valid_sentences : Z;
  invalid_sentences : Z;
  total_sentences : Z;
  outfile : string;
  stdout : list string;
  current_sentence : list string;
  current_comments : list string;
  sent_id : option string
}.

(** [f"{sent_id}"] *)
Definition fmt_sent_id (sent_id : option string) : string :=
  match sent_id with Some s => s | None => "None" end.

(** [for x in l: outfile.write(x + '\n')] *)
Definition write_lines (l : list string) (out : string) : string :=
  foldl (λ out x, out ++ x ++ String Py.nl "") out l.

(** What both the blank-line branch and the end of the stream do with a
    pending sentence: count it, validate it, write or drop it.  [where_] is
    the text between the identifier and the colon of the verbose message. *)
Definition handle_sentence (verbose : bool) (where_ : string) (d : Driver) : Driver :=
  let total := total_sentences d + 1 in
  let '(ok, v) := validate_sentence (validator d) (current_sentence d) (sent_id d) in
  if ok then
    {| validator := v;
       valid_sentences := valid_sentences d + 1;
       invalid_sentences := invalid_sentences d;
       total_sentences := total;
       outfile := write_lines (current_sentence d)
                    (write_lines (current_comments d) (outfile d))
                  ++ String Py.nl "";
       stdout := stdout d;
       current_sentence := current_sentence d;
       current_comments := current_comments d;
       sent_id := sent_id d |}
  else
    {| validator := v;
       valid_sentences := valid_sentences d;
       invalid_sentences := invalid_sentences d + 1;
       total_sentences := total;
       outfile := outfile d;
       stdout := if verbose
                 then stdout d ++
                        ["Removed sentence " ++ fmt_sent_id (sent_id d) ++ where_ ++ ": "
                         ++ Py.join "; " (get_errors v)]
                 else stdout d;
       current_sentence := current_sentence d;
       current_comments := current_comments d;
       sent_id := sent_id d |}.

(** [current_sentence = []; current_comments = []; sent_id = None] *)
Definition reset_buffers (d : Driver) : Driver :=
  {| validator := validator d;
     valid_sentences := valid_sentences d;
     invalid_sentences := invalid_sentences d;
     total_sentences := total_sentences d;
     outfile := outfile d;
     stdout := stdout d;
     current_sentence := [];
     current_comments := [];
     sent_id := None |}.

Definition comment_line (line : string) (d : Driver) : Driver :=
  {| validator := validator d;
     valid_sentences := valid_sentences d;
     invalid_sentences := invalid_sentences d;
     total_sentences := total_sentences d;
     outfile := outfile d;
     stdout := stdout d;
     current_sentence := current_sentence d;
     current_comments := current_comments d ++ [line];
     sent_id :=
       if Py.startswith "# sent_id" line then
         if Py.contains "=" line
         then Py.strip <$> Py.after_first "=" line
         else Some (Py.str (total_sentences d + 1))
       else sent_id d |}.

Definition token_line (line : string) (d : Driver) : Driver :=
  {| validator := validator d;
     valid_sentences := valid_sentences d;
     invalid_sentences := invalid_sentences d;
     total_sentences := total_sentences d;
     outfile := outfile d;
     stdout := stdout d;
     current_sentence := current_sentence d ++ [line];
     current_comments := current_comments d;
     sent_id := sent_id d |}.

(** The body of [for line_num, line in enumerate(infile, 1)]. *)
Definition read_line (verbose : bool) (d : Driver) (item : Z * string) : Driver :=
  let '(line_num, line) := item in
  let line := Py.rstrip_nl line in
  if Py.startswith "#" line then comment_line line d
  else if bool_decide (Py.strip line = "") then
    match current_sentence d with
    | [] => d
    | _ => reset_buffers
             (handle_sentence verbose (" (line ~" ++ Py.str line_num ++ ")") d)
    end
  else token_line line d.

(** [if current_sentence: ...] after the loop. *)
Definition end_of_stream (verbose : bool) (d : Driver) : Driver :=
  match current_sentence d with
  | [] => d
  | _ => handle_sentence verbose "" d
  end.

Definition print (line : string) (d : Driver) : Driver :=
  {| validator := validator d;
     valid_sentences := valid_sentences d;
     invalid_sentences := invalid_sentences d;
     total_sentences := total_sentences d;
     outfile := outfile d;
     stdout := stdout d ++ [line];
     current_sentence := current_sentence d;
     current_comments := current_comments d;
     sent_id := sent_id d |}.

(** The argument of the last [print]: a conditional expression, whose
    division is evaluated only on its first branch. *)
Definition success_rate (valid_sentences total_sentences : Z) : Float.exn + string :=
  if decide (total_sentences > 0) then
    match Float.truediv valid_sentences total_sentences with
    | inr q => inr ("  Success rate: " ++ Float.format_1f (Float.mul_int q 100) ++ "%")
    | inl e => inl e
    end
  else inr "  Success rate: 0%".

(** The four [print]s after the [with] block.  An exception of the last
    leaves the first three printed. *)
Definition summary (d : Driver) : Driver * option Float.exn :=
  let d := print "Processing complete:" d in
  let d := print ("  Total sentences: " ++ Py.str (total_sentences d)) d in
  let d := print ("  Valid sentences: " ++ Py.str (valid_sentences d)) d in
  let d := print ("  Invalid sentences removed: " ++ Py.str (invalid_sentences d)) d in
  match success_rate (valid_sentences d) (total_sentences d) with
  | inr line => (print line d, None)
  | inl e => (d, Some e)
  end.

Definition initial_driver : Driver :=
  {| validator := __init__;
     valid_sentences := 0;
     invalid_sentences := 0;
     total_sentences := 0;
     outfile := "";
     stdout := [];
     current_sentence := [];
     current_comments := [];
     sent_id := None |}.

(** The [with] block: the loop over the lines and the last sentence. *)
Definition process_stream (input_file : string) (verbose : bool) : Driver :=
  end_of_stream verbose
    (foldl (read_line verbose) initial_driver
       (Py.enumerate 1 (readlines (universal_newlines input_file)))).

(** [clean_conllu_file], from the text of the input file: the final state
    (with the text of the output file and the lines printed) and the
    exception raised, if any. *)
Definition clean_conllu_file (input_file : string) (verbose : bool)
    : Driver * option Float.exn :=
  summary (process_stream input_file verbose).

(** The text of the output file. *)
Definition output_file (input_file : string) (verbose : bool) : string :=
  outfile (fst (clean_conllu_file input_file verbose)).

(** ** Notions the properties are stated with *)

(** The frame [validate_sentence] starts its loop with. *)
Definition empty_frame : Frame :=
  {| this := {| errors := [] |}; tokens := []; roots := []; token_ids := ∅ |}.

(** What one line contributes: its token, if it is structural, and its
    diagnostic, if it is malformed. *)
Definition line_tokens (item : Z * string) : list Token.t :=
  tokens (parse_line empty_frame item).

Definition line_errors (item : Z * string) : list string :=
  errors (this (parse_line empty_frame item)).

(** The structural tokens of a sentence: the list [tokens] after the
    parsing loop. *)
Definition structural_tokens (sentence_lines : list string) : list Token.t :=
  tokens (parse_lines {| errors := [] |} sentence_lines).

Definition is_root (t : Token.t) : Prop := Token.head t = 0.

#[global] Instance is_root_dec t : Decision (is_root t).
Proof. unfold is_root. apply _. Defined.

(** The tokens with head 0. *)
Definition root_tokens (sentence_lines : list string) : list Token.t :=
  filter is_root (structural_tokens sentence_lines).

(** One step of the head chain among the tokens of a sentence: from a
    token (whose id is not 0) to a token whose id is its head. *)
Definition head_step (toks : list Token.t) (t t' : Token.t) : Prop :=
  t ∈ toks ∧ t' ∈ toks ∧ Token.id t ≠ 0 ∧ Token.head t = Token.id t'.

(** The head chain has a cycle that does not pass through 0. *)
Definition head_cycle (toks : list Token.t) : Prop :=
  ∃ t, tc (head_step toks) t t.

(** One step of the walk of [_check_no_cycles] in its dict. *)
Definition map_step (m : gmap Z Z) (x y : Z) : Prop :=
  x ≠ 0 ∧ m !! x = Some y.

Definition map_cycle (m : gmap Z Z) : Prop :=
  ∃ x, tc (map_step m) x x.

(** A head that is neither 0 nor the id of a structural token. *)
Definition invalid_head (toks : list Token.t) (t : Token.t) : Prop :=
  Token.head t ≠ 0 ∧ ∀ t', t' ∈ toks → Token.id t' ≠ Token.head t.

(** [form], [upos] and [deprel] are neither empty nor the underscore. *)
Definition populated (t : Token.t) : Prop :=
  missing (Token.form t) = false ∧ missing (Token.upos t) = false
  ∧ missing (Token.deprel t) = false.

(** The shape of a line: ten fields, and an id and a head that are
    integers unless the id marks a span or an empty node. *)
Definition ten_fields (line : string) : Prop :=
  length (Py.split Py.tab line) = 10%nat.

Definition marker_id (line : string) : Prop :=
  ∃ token_id rest, Py.split Py.tab line = token_id :: rest
    ∧ (Py.contains "-" token_id || Py.contains "." token_id) = true.

Definition well_formed_line (line : string) : Prop :=
  ∃ token_id form lemma upos xpos feats head deprel deps misc,
    Py.split Py.tab line
    = [token_id; form; lemma; upos; xpos; feats; head; deprel; deps; misc]
    ∧ ((Py.contains "-" token_id || Py.contains "." token_id) = true
       ∨ (is_Some (Py.int token_id) ∧ is_Some (Py.int head))).

(** The diagnostics of each check, as lists. *)
Definition root_errors (roots : list Z) : list string :=
  errors (check_roots roots {| errors := [] |}).

Definition head_errors (ids : gset Z) (toks : list Token.t) : list string :=
  errors (check_heads ids toks {| errors := [] |}).

Definition cycle_errors (toks : list Token.t) : list string :=
  errors (check_cycles toks {| errors := [] |}).

Definition field_errors (toks : list Token.t) : list string :=
  errors (check_fields toks {| errors := [] |}).

(** Validating one sentence after another on the same object. *)
Definition validate_all (self : CoNLLUValidator)
    (history : list (list string * option string)) : CoNLLUValidator :=
  foldl (λ self call, snd (validate_sentence self call.1 call.2)) self history.

(** Lines of a file, as the driver classifies them. *)
Definition is_comment (line : string) : Prop := Py.startswith "#" line = true.

Definition is_blank (line : string) : Prop :=
  Py.startswith "#" line = false ∧ Py.strip line = "".

Definition is_token_line (line : string) : Prop :=
  Py.startswith "#" line = false ∧ Py.strip line ≠ "".

(** The lines the loop of the driver sees, terminators stripped. *)
Definition stream_lines (input_file : string) : list string :=
  map Py.rstrip_nl (readlines (universal_newlines input_file)).

(** A tab-separated token line. *)
Definition row (fields : list string) : string := Py.join (String Py.tab "") fields.

(** Scenario A of the specification, and its variants. *)
Definition scenario_A : list string :=
  [ row ["1"; "Dog"; "_"; "NOUN"; "_"; "_"; "2"; "nsubj"; "_"; "_"];
    row ["2"; "barks"; "_"; "VERB"; "_"; "_"; "0"; "root"; "_"; "_"] ].

Definition scenario_B : list string :=
  [ row ["1"; "Dog"; "_"; "NOUN"; "_"; "_"; "0"; "nsubj"; "_"; "_"];
    row ["2"; "barks"; "_"; "VERB"; "_"; "_"; "0"; "root"; "_"; "_"] ].

Definition scenario_C : list string :=
  [ row ["1"; "Dog"; "_"; "NOUN"; "_"; "_"; "5"; "nsubj"; "_"; "_"];
    row ["2"; "barks"; "_"; "VERB"; "_"; "_"; "0"; "root"; "_"; "_"] ].

Definition scenario_D : list string :=
  [ row ["1"; "Dog"; "_"; "NOUN"; "_"; "_"; "2"; "nsubj"; "_"; "_"];
    row ["2"; "barks"; "_"; "VERB"; "_"; "_"; "1"; "dep"; "_"; "_"] ].

(** Two lines with the id 1: the first is its own head, the second is the
    root. *)
Definition self_head_duplicate : list string :=
  [ row ["1"; "Dog"; "_"; "NOUN"; "_"; "_"; "1"; "dep"; "_"; "_"];
    row ["1"; "barks"; "_"; "VERB"; "_"; "_"; "0"; "root"; "_"; "_"] ].

(** A root, and the id 2 twice with the root as head. *)
Definition duplicate_id : list string :=
  [ row ["1"; "barks"; "_"; "VERB"; "_"; "_"; "0"; "root"; "_"; "_"];
    row ["2"; "Dog"; "_"; "NOUN"; "_"; "_"; "1"; "nsubj"; "_"; "_"];
    row ["2"; "Cat"; "_"; "NOUN"; "_"; "_"; "1"; "nsubj"; "_"; "_"] ].

(** A well-formed root line followed by a line of one field. *)
Definition root_and_junk : list string :=
  [ row ["1"; "barks"; "_"; "VERB"; "_"; "_"; "0"; "root"; "_"; "_"]; "junk" ].

(** A span line of ten fields. *)
Definition span_line : string :=
  row ["1-2"; "Dogbarks"; "_"; "_"; "_"; "_"; "_"; "_"; "_"; "_"].

(** The text of a file of the given lines, each ended by a line feed. *)
Definition file_of_lines (lines : list string) : string := write_lines lines "".

(** Scenario E: the sentence of scenario A, then that of scenario B, each
    followed by a blank line. *)
Definition scenario_E : string :=
  file_of_lines (scenario_A ++ [""] ++ scenario_B ++ [""])%list.

(** The part of the state of the driver its output depends on: the text
    written so far, the comments and the token lines pending. *)
Definition view (d : Driver) : string * list string * list string :=
  (outfile d, current_comments d, current_sentence d).

(** What handling the pending sentence does to the text written. *)
Definition emit (out : string) (comments sentence : list string) : string :=
  if (validate_sentence __init__ sentence None).1
  then write_lines sentence (write_lines comments out) ++ String Py.nl ""
  else out.

(** The loop body and the end of the stream, on that part of the state. *)
Definition view_step (s : string * list string * list string) (line : string)
    : string * list string * list string :=
  let '(out, comments, sentence) := s in
  if Py.startswith "#" line then (out, (comments ++ [line])%list, sentence)
  else if bool_decide (Py.strip line = "") then
    match sentence with
    | [] => s
    | _ => (emit out comments sentence, [], [])
    end
  else (out, comments, (sentence ++ [line])%list).

Definition view_end (s : string * list string * list string) : string :=
  let '(out, comments, sentence) := s in
  match sentence with
  | [] => out
  | _ => emit out comments sentence
  end.

(** A line without line feed and carriage return. *)
Definition clean_line (line : string) : Prop :=
  Py.contains Py.nl line = false ∧ Py.contains Py.cr line = false.

(** A sentence as the driver writes it: its comments, its token lines,
    and the blank line; and what makes the driver write it. *)
Definition block_lines (b : list string * list string) : list string :=
  (b.1 ++ b.2 ++ [""])%list.

Definition block_ok (b : list string * list string) : Prop :=
  Forall is_comment (b.1) ∧ Forall is_token_line (b.2) ∧ b.2 ≠ []
  ∧ (validate_sentence __init__ (b.2) None).1 = true
  ∧ Forall clean_line (b.1 ++ b.2)%list.

(** A cleaned file: a sequence of such sentences. *)
Definition cleaned (out : string) : Prop :=
  ∃ blocks, Forall block_ok blocks ∧ out = file_of_lines (blocks ≫= block_lines).

(** What the loop of the driver maintains: the text written is a cleaned
    file, the pending comments are comments and the pending token lines are
    token lines. *)
Definition driver_inv (s : string * list string * list string) : Prop :=
  cleaned (s.1.1) ∧ Forall is_comment (s.1.2) ∧ Forall is_token_line (s.2)
  ∧ Forall clean_line (s.1.2 ++ s.2)%list.

(** The state of the driver without what it has printed. *)
Definition silent (d : Driver) : Driver :=
  {| validator := validator d;
     valid_sentences := valid_sentences d;
     invalid_sentences := invalid_sentences d;
     total_sentences := total_sentences d;
     outfile := outfile d;
     stdout := [];
     current_sentence := current_sentence d;
     current_comments := current_comments d;
     sent_id := sent_id d |}.

(** The three counters. *)
Definition tally (d : Driver) : Z * Z * Z :=
  (total_sentences d, valid_sentences d, invalid_sentences d).

(** The four lines every summary starts with. *)
Definition summary_head (d : Driver) : list string :=
  [ "Processing complete:";
    "  Total sentences: " +:+ Py.str (total_sentences d);
    "  Valid sentences: " +:+ Py.str (valid_sentences d);
    "  Invalid sentences removed: " +:+ Py.str (invalid_sentences d) ]%list.

(** What the loop of the driver keeps of the lines printed: they are the
    messages of removed sentences, one for each invalid sentence when
    verbose, none otherwise. *)
Definition removed_log (verbose : bool) (d : Driver) : Prop :=
  Forall (λ m, Py.startswith "Removed sentence " m = true) (stdout d)
  ∧ Z.of_nat (length (stdout d)) = if verbose then invalid_sentences d else 0.

#[global] Instance is_comment_dec line : Decision (is_comment line).
Proof. unfold is_comment. apply _. Defined.

#[global] Instance is_blank_dec line : Decision (is_blank line).
Proof. unfold is_blank. apply _. Defined.

#[global] Instance is_token_line_dec line : Decision (is_token_line line).
Proof. unfold is_token_line. apply _. Defined.

(** Counting one sentence: [total] and one of [valid] and [invalid]. *)
Definition count_sentence (sentence : list string) (c : Z * Z * Z) : Z * Z * Z :=
  let '(total, valid, invalid) := c in
  if (validate_sentence __init__ sentence None).1
  then (total + 1, valid + 1, invalid)
  else (total + 1, valid, invalid + 1).

(** The loop body and the end of the stream on the text written, the two
    buffers and the counters. *)
Definition full_step (s : (string * list string * list string) * (Z * Z * Z))
    (line : string) : (string * list string * list string) * (Z * Z * Z) :=
  (view_step (s.1) line,
   if Py.startswith "#" line then s.2
   else if bool_decide (Py.strip line = "") then
     match s.1.2 with
     | [] => s.2
     | sentence => count_sentence sentence (s.2)
     end
   else s.2).

Definition full_end (s : (string * list string * list string) * (Z * Z * Z))
    : string * (Z * Z * Z) :=
  (view_end (s.1),
   match s.1.2 with
   | [] => s.2
   | sentence => count_sentence sentence (s.2)
   end).

(** The lines of one sentence as the driver gathers them, up to the blank
    line that ends it: first lines that are no token lines (comments, and
    blank lines, which do nothing while no token line is pending), then
    lines that are not blank, with at least one token line. *)
Definition segment (seg : list string) : Prop :=
  ∃ pre body, seg = (pre ++ body)%list
    ∧ Forall (λ l, ¬ is_token_line l) pre
    ∧ Forall (λ l, ¬ is_blank l) body
    ∧ filter is_token_line body ≠ []
    ∧ Forall clean_line seg.

(** The sentence of a segment passes validation. *)
Definition passes (seg : list string) : Prop :=
  (validate_sentence __init__ (filter is_token_line seg) None).1 = true.

#[global] Instance passes_dec seg : Decision (passes seg).
Proof. unfold passes. apply _. Defined.

(** What the driver writes for a segment that passes: its comments, its
    token lines, a blank line. *)
Definition written (seg : list string) : list string :=
  (filter is_comment seg ++ filter is_token_line seg ++ [""])%list.

(** What the loop of the driver keeps, for an input of lines [L]: the text
    written is a sequence of sentences that pass, made of lines of [L], as
    many as [valid] counts; the pending comments and token lines are
    comments and token lines of [L]. *)
Definition kept_from (L : list string)
    (s : (string * list string * list string) * (Z * Z * Z)) : Prop :=
  ∃ blocks,
    Forall block_ok blocks
    ∧ Forall (λ b, Forall (λ l, l ∈ L) (b.1 ++ b.2)%list) blocks
    ∧ s.1.1.1 = file_of_lines (blocks ≫= block_lines)
    ∧ s.2.1.2 = Z.of_nat (length blocks)
    ∧ Forall is_comment (s.1.1.2) ∧ Forall is_token_line (s.1.2)
    ∧ Forall (λ l, l ∈ L) (s.1.1.2 ++ s.1.2)%list.

(** ** The sentence blocks of an input *)

(** The lines cut at the blank lines, as [str.split] cuts a text at a
    separator: the pieces hold no blank line, and there is one piece more
    than there are blank lines. *)
Fixpoint blank_separated (lines : list string) : list (list string) :=
  match lines with
  | [] => [[]]
  | l :: rest =>
      if decide (is_blank l) then [] :: blank_separated rest
      else match blank_separated rest with
           | g :: gs => (l :: g) :: gs
           | [] => [[l]]
           end
  end.

(** The sentence blocks of the lines of a file: the comment lines left out,
    the runs of token lines between blank lines, in the order of the file.
    The last run is a block whether a blank line follows it or not. *)
Definition sentence_blocks (lines : list string) : list (list string) :=
  filter (λ b, b ≠ []) (blank_separated (filter (λ l, ¬ is_comment l) lines)).

(** A block the validator accepts. *)
Definition sentence_valid (block : list string) : Prop :=
  (validate_sentence __init__ block None).1 = true.

#[global] Instance sentence_valid_dec block : Decision (sentence_valid block).
Proof. unfold sentence_valid. apply _. Defined.

(** ** The assembly script ([move-conllues.py]) *)

Module Assemble.

(** [s.split("\n\n")] *)
Fixpoint split_blank (s : string) : list string :=
  match s with
  | EmptyString => [""]
  | String a r =>
      match r with
      | String b r' =>
          if decide (a = Py.nl ∧ b = Py.nl) then "" :: split_blank r'
          else match split_blank r with
               | f :: fs => String a f :: fs
               | [] => [String a ""]
               end
      | EmptyString => [String a ""]
      end
  end.

(** [read_conllu], from the text of the file. *)
Definition read_conllu (file : string) : list string :=
  let content := Py.strip (universal_newlines file) in
  if decide (content = "") then [] else split_blank content.

(** [write_conllu]: the text written. *)
Definition write_conllu (sentences : list string) : string :=
  foldl (λ out s, out +:+ (Py.strip s +:+ String Py.nl (String Py.nl ""))) ""
    sentences.

(** The float [0.90]. *)
Definition ninety_percent : spec_float :=
  S754_finite false 8106479329266893 (-53).

(** [float(n)]. *)
Definition float_of_int (n : Z) : spec_float :=
  binary_normalize Float.prec Float.emax n 0 false.

(** [int(x)] for a float: towards zero. *)
Definition int_of_float (x : spec_float) : option Z :=
  match x with
  | S754_zero _ => Some 0
  | S754_finite s m e =>
      let a := if decide (0 <= e) then Z.pos m * 2 ^ e else Z.pos m / 2 ^ (- e) in
      Some (if s then - a else a)
  | _ => None
  end.

(** [int(n * 0.90)]; [None] is [OverflowError]. *)
Definition split_point (n : Z) : option Z :=
  match float_of_int n with
  | S754_infinity _ => None
  | x => int_of_float (SFmul Float.prec Float.emax x ninety_percent)
  end.

(** [random.shuffle], then the split: [train_sents] and [dev_sents].  The
    shuffle is a parameter. *)
Definition split_sentences (shuffle : list string → list string)
    (all_sentences : list string) : option (list string * list string) :=
  let all_sentences := shuffle all_sentences in
  let n := Z.of_nat (length all_sentences) in
  match split_point n with
  | Some sp =>
      Some (take (Z.to_nat sp) all_sentences, drop (Z.to_nat sp) all_sentences)
  | None => None
  end.

(** The two texts written. *)
Definition split_and_write (shuffle : list string → list string)
    (all_sentences : list string) : option (string * string) :=
  match split_sentences shuffle all_sentences with
  | Some (train_sents, dev_sents) =>
      Some (write_conllu train_sents, write_conllu dev_sents)
  | None => None
  end.

(** The sentences loaded: those of the project files, in the order of the
    traversal, then those of the two diachronic files. *)
Definition load (project_files : list string) (diachronic_dev diachronic_train : string)
    : list string :=
  ((project_files ≫= read_conllu)
   ++ read_conllu diachronic_dev ++ read_conllu diachronic_train)%list.

(** All characters are white space. *)
Fixpoint all_space (s : string) : bool :=
  match s with
  | EmptyString => true
  | String a r => Py.isspace a && all_space r
  end.

(** A sentence that [write_conllu] and [read_conllu] can carry: not empty,
    no carriage return, no blank line inside. *)
Definition block_text (s : string) : Prop :=
  s ≠ "" ∧ Py.contains Py.cr s = false ∧ split_blank s = [s].

End Assemble.

(** * Properties *)

Local Open Scope list_scope.
Local Open Scope Z_scope.

(** ** The parsing loop *)

Lemma parse_line_frame f item :
  parse_line f item =
  {| this := {| errors := errors (this f) ++ line_errors item |};
     tokens := tokens f ++ line_tokens item;
     roots := roots f ++ map Token.id (filter is_root (line_tokens item));
     token_ids := list_to_set (map Token.id (line_tokens item)) ∪ token_ids f |}.
Proof.
  unfold line_errors, line_tokens, parse_line.
  destruct f as [[errs] toks rts ids], item as [n line].
  destruct (Py.split Py.tab line)
    as [|a [|b [|c [|d [|e [|g [|h [|i [|j [|k [|]]]]]]]]]]];
    cbn [frame_error errors_append this errors tokens roots token_ids
         empty_frame map filter list_filter app list_to_set];
    rewrite ?app_nil_r, ?(left_id_L ∅ (∪)); try reflexivity.
  destruct (_ || _); cbn; rewrite ?app_nil_r, ?(left_id_L ∅ (∪)); try reflexivity.
  destruct (Py.int a) as [ia|], (Py.int h) as [ih|];
    cbn; rewrite ?app_nil_r, ?(left_id_L ∅ (∪)); try reflexivity.
  unfold filter; cbn. unfold is_root at 1; cbn.
  rewrite (right_id_L ∅ (∪)).
  destruct (decide (ih = 0)); cbn; rewrite ?app_nil_r; reflexivity.
Qed.

Lemma parse_items_frame items : ∀ f,
  foldl parse_line f items =
  {| this := {| errors := errors (this f) ++ (items ≫= line_errors) |};
     tokens := tokens f ++ (items ≫= line_tokens);
     roots := roots f ++ map Token.id (filter is_root (items ≫= line_tokens));
     token_ids := list_to_set (map Token.id (items ≫= line_tokens)) ∪ token_ids f |}.
Proof.
  induction items as [|item items IH]; intros f.
  - destruct f as [[errs] toks rts ids]; cbn.
    by rewrite !app_nil_r, (left_id_L ∅ (∪)).
  - cbn [foldl]. rewrite IH, parse_line_frame. cbn [this errors tokens roots token_ids].
    rewrite !bind_cons, filter_app, !map_app, list_to_set_app_L, <- !app_assoc.
    f_equal. by rewrite (assoc_L (∪)), (comm_L (∪) (list_to_set _)) at 1.
Qed.

Lemma parse_lines_tokens self0 sentence_lines :
  tokens (parse_lines self0 sentence_lines) = structural_tokens sentence_lines.
Proof. unfold structural_tokens, parse_lines. by rewrite !parse_items_frame. Qed.

Lemma structural_tokens_bind sentence_lines :
  structural_tokens sentence_lines = Py.enumerate 1 sentence_lines ≫= line_tokens.
Proof. unfold structural_tokens, parse_lines. by rewrite parse_items_frame. Qed.

Lemma parse_lines_roots self0 sentence_lines :
  roots (parse_lines self0 sentence_lines) = map Token.id (root_tokens sentence_lines).
Proof.
  unfold root_tokens. rewrite structural_tokens_bind.
  unfold parse_lines. by rewrite parse_items_frame.
Qed.

Lemma parse_lines_ids self0 sentence_lines :
  token_ids (parse_lines self0 sentence_lines)
  = list_to_set (map Token.id (structural_tokens sentence_lines)).
Proof.
  rewrite structural_tokens_bind. unfold parse_lines.
  rewrite parse_items_frame. cbn. by rewrite (right_id_L ∅ (∪)).
Qed.

Lemma parse_lines_errors sentence_lines :
  errors (this (parse_lines {| errors := [] |} sentence_lines))
  = Py.enumerate 1 sentence_lines ≫= line_errors.
Proof. unfold parse_lines. by rewrite parse_items_frame. Qed.

Lemma enumerate_app {A} (l1 l2 : list A) : ∀ n,
  Py.enumerate n (l1 ++ l2)
  = Py.enumerate n l1 ++ Py.enumerate (n + Z.of_nat (length l1)) l2.
Proof.
  induction l1 as [|x l1 IH]; intros n; cbn [Py.enumerate app length].
  - by rewrite Z.add_0_r.
  - rewrite IH. do 3 f_equal. lia.
Qed.

Lemma enumerate_lookup {A} (l : list A) : ∀ n i x,
  l !! i = Some x → (n + Z.of_nat i, x) ∈ Py.enumerate n l.
Proof.
  induction l as [|y l IH]; intros n [|i] x Hx; simplify_eq/=.
  - rewrite Z.add_0_r. left.
  - right. replace (n + Z.of_nat (S i)) with ((n + 1) + Z.of_nat i) by lia.
    by apply IH.
Qed.

Lemma enumerate_elem {A} (l : list A) : ∀ n k x,
  (k, x) ∈ Py.enumerate n l → ∃ i, l !! i = Some x ∧ k = n + Z.of_nat i.
Proof.
  induction l as [|y l IH]; intros n k x Hx; cbn in Hx.
  - by apply elem_of_nil in Hx.
  - apply elem_of_cons in Hx as [[= -> ->]|Hx].
    + exists 0%nat. split; [done|lia].
    + apply IH in Hx as (i & Hi & ->). exists (S i). split; [done|lia].
Qed.

(** ** The checks, as lists of diagnostics *)

Lemma check_roots_errors rts self :
  errors (check_roots rts self) = errors self ++ root_errors rts.
Proof.
  unfold root_errors, check_roots.
  destruct rts as [|? [|? ?]]; cbn; by rewrite ?app_nil_r.
Qed.

Lemma check_heads_errors ids toks : ∀ self,
  errors (check_heads ids toks self) = errors self ++ head_errors ids toks.
Proof.
  unfold head_errors, check_heads.
  induction toks as [|t toks IH] using rev_ind; intros self.
  - cbn. by rewrite app_nil_r.
  - rewrite !foldl_app. cbn [foldl].
    case_decide; cbn [errors_append errors]; rewrite (IH self);
      by rewrite ?app_assoc.
Qed.

Lemma check_cycles_errors toks self :
  errors (check_cycles toks self) = errors self ++ cycle_errors toks.
Proof.
  unfold cycle_errors, check_cycles.
  destruct (_check_no_cycles toks); cbn; by rewrite ?app_nil_r.
Qed.

Lemma check_fields_token_errors self t :
  errors (check_fields_token self t)
  = errors self ++ errors (check_fields_token {| errors := [] |} t).
Proof.
  unfold check_fields_token.
  destruct (missing (Token.form t)), (missing (Token.upos t)),
    (missing (Token.deprel t)); cbn; by rewrite <- ?app_assoc, ?app_nil_r.
Qed.

Lemma check_fields_errors toks : ∀ self,
  errors (check_fields toks self) = errors self ++ field_errors toks.
Proof.
  unfold field_errors, check_fields.
  induction toks as [|t toks IH] using rev_ind; intros self.
  - cbn. by rewrite app_nil_r.
  - rewrite !foldl_app. cbn [foldl].
    rewrite check_fields_token_errors, IH.
    rewrite (check_fields_token_errors (foldl _ _ _)), (IH {| errors := [] |}).
    cbn. by rewrite app_assoc.
Qed.

Lemma validator_eta (v : CoNLLUValidator) : v = {| errors := errors v |}.
Proof. by destruct v. Qed.

(** The diagnostics of a non-empty sentence, check by check. *)
Lemma validate_sentence_errors self line rest sent_id :
  let sentence_lines := line :: rest in
  let toks := structural_tokens sentence_lines in
  errors (validate_sentence self sentence_lines sent_id).2
  = (Py.enumerate 1 sentence_lines ≫= line_errors)
    ++ root_errors (map Token.id (root_tokens sentence_lines))
    ++ head_errors (list_to_set (map Token.id toks)) toks
    ++ cycle_errors toks
    ++ field_errors toks.
Proof.
  cbn zeta. unfold validate_sentence, run_checks. cbn [snd].
  rewrite check_fields_errors, check_cycles_errors, check_heads_errors,
    check_roots_errors, parse_lines_errors, parse_lines_tokens,
    parse_lines_roots, parse_lines_ids.
  by rewrite <- !app_assoc.
Qed.

Lemma validate_sentence_verdict self sentence_lines sent_id :
  (validate_sentence self sentence_lines sent_id).1 = true
  ↔ errors (validate_sentence self sentence_lines sent_id).2 = [].
Proof.
  unfold validate_sentence, run_checks.
  destruct sentence_lines as [|line rest]; cbn [fst snd].
  - split; [done|]. cbn. discriminate.
  - rewrite bool_decide_eq_true. apply length_zero_iff_nil.
Qed.

Lemma validate_sentence_fail self sentence_lines sent_id msg :
  msg ∈ errors (validate_sentence self sentence_lines sent_id).2 →
  (validate_sentence self sentence_lines sent_id).1 = false.
Proof.
  intros Hm. apply not_true_is_false. intros Ht.
  apply validate_sentence_verdict in Ht. rewrite Ht in Hm.
  by apply elem_of_nil in Hm.
Qed.

(** ** Cycle detection *)

Lemma token_heads_of_snoc toks t :
  token_heads_of (toks ++ [t])
  = <[Token.id t := Token.head t]> (token_heads_of toks).
Proof. unfold token_heads_of. by rewrite foldl_app. Qed.

Lemma token_heads_of_Some toks x h :
  token_heads_of toks !! x = Some h →
  ∃ t, t ∈ toks ∧ Token.id t = x ∧ Token.head t = h.
Proof.
  induction toks as [|t toks IH] using rev_ind.
  - unfold token_heads_of; cbn. by rewrite lookup_empty.
  - rewrite token_heads_of_snoc, lookup_insert. case_decide as Hx.
    + intros [= <-]. exists t. split; [|done]. apply elem_of_app. right. left.
    + intros (t' & ? & ? & ?)%IH. exists t'. split; [|done].
      apply elem_of_app. by left.
Qed.

Lemma token_heads_of_NoDup toks t :
  NoDup (map Token.id toks) → t ∈ toks →
  token_heads_of toks !! Token.id t = Some (Token.head t).
Proof.
  induction toks as [|u toks IH] using rev_ind; intros Hnd Ht.
  - by apply elem_of_nil in Ht.
  - rewrite map_app in Hnd. apply NoDup_app in Hnd as (Hnd & Hfresh & _).
    rewrite token_heads_of_snoc, lookup_insert.
    apply elem_of_app in Ht as [Ht|Ht].
    + case_decide as Hid; [|by apply IH].
      exfalso. apply (Hfresh (Token.id t)).
      * apply list_elem_of_fmap. by exists t.
      * rewrite <- Hid. cbn. left.
    + apply list_elem_of_singleton in Ht as ->. by case_decide.
Qed.

Lemma while_loop_terminates heads : ∀ fuel visited current,
  visited ⊆ dom heads →
  (size (dom heads) < fuel + size visited)%nat →
  is_Some (while_loop fuel heads visited current).
Proof.
  induction fuel as [|fuel IH]; intros visited current Hsub Hlt.
  - apply subseteq_size in Hsub. lia.
  - cbn [while_loop]. case_decide; [by eexists|].
    destruct (heads !! current) as [h|] eqn:Hh; [|by eexists].
    case_decide as Hvis; [by eexists|].
    apply IH.
    + apply union_subseteq. split; [|done].
      apply singleton_subseteq_l, elem_of_dom. by eexists.
    + rewrite size_union, size_singleton by set_solver. lia.
Qed.

Lemma for_start_terminates heads starts :
  is_Some (for_start (S (size heads)) heads starts).
Proof.
  induction starts as [|t starts IH]; cbn [for_start]; [by eexists|].
  destruct (while_loop_terminates heads (S (size heads)) ∅ (Token.id t))
    as [[|] ->]; [set_solver|rewrite size_dom, size_empty; lia|done|by eexists].
Qed.

Lemma for_start_true fuel heads starts :
  for_start fuel heads starts = Some true →
  ∀ t, t ∈ starts → while_loop fuel heads ∅ (Token.id t) = Some true.
Proof.
  induction starts as [|u starts IH]; cbn [for_start]; intros Hf t Ht.
  - by apply elem_of_nil in Ht.
  - destruct (while_loop fuel heads ∅ (Token.id u)) as [[|]|] eqn:Hu; try done.
    apply elem_of_cons in Ht as [->|Ht]; [done|by apply IH].
Qed.

Lemma for_start_false fuel heads starts :
  for_start fuel heads starts = Some false →
  ∃ t, t ∈ starts ∧ while_loop fuel heads ∅ (Token.id t) = Some false.
Proof.
  induction starts as [|u starts IH]; cbn [for_start]; intros Hf; [done|].
  destruct (while_loop fuel heads ∅ (Token.id u)) as [[|]|] eqn:Hu; try done.
  - destruct (IH Hf) as (t & ? & ?). exists t. split; [by right|done].
  - exists u. split; [left|done].
Qed.

(** The walk answers [False] only on a cycle of the dict. *)
Lemma while_loop_false heads : ∀ fuel visited current,
  (∀ v, v ∈ visited → tc (map_step heads) v current) →
  while_loop fuel heads visited current = Some false →
  map_cycle heads.
Proof.
  induction fuel as [|fuel IH]; intros visited current Hinv; cbn [while_loop]; [done|].
  case_decide as Hz; [done|].
  destruct (heads !! current) as [h|] eqn:Hh; [|done].
  case_decide as Hvis.
  - intros _. exists current. by apply Hinv.
  - apply IH. intros v [->%elem_of_singleton|Hv]%elem_of_union.
    + by apply tc_once.
    + eapply tc_r; [by apply Hinv|done].
Qed.

Lemma map_step_det heads x y z :
  map_step heads x y → map_step heads x z → y = z.
Proof. intros [_ Hy] [_ Hz]. congruence. Qed.

Lemma map_cycle_back heads x y :
  tc (map_step heads) x x → rtc (map_step heads) x y → tc (map_step heads) y x.
Proof.
  intros Hc. revert y. apply rtc_ind_r; [done|]. intros y z Hxy Hyz IH.
  inversion IH as [? ? Hs|? w ? Hs Hw]; subst.
  - by rewrite <- (map_step_det _ _ _ _ Hs Hyz).
  - by rewrite <- (map_step_det _ _ _ _ Hs Hyz).
Qed.

Lemma tc_first_step {A} (R : relation A) x y : tc R x y → ∃ z, R x z.
Proof. destruct 1; eauto. Qed.

(** On a cycle of the dict the walk never ends normally. *)
Lemma while_loop_on_cycle heads x : tc (map_step heads) x x →
  ∀ fuel visited current, rtc (map_step heads) x current →
  while_loop fuel heads visited current ≠ Some true.
Proof.
  intros Hc. induction fuel as [|fuel IH]; intros visited current Hreach;
    cbn [while_loop]; [done|].
  destruct (tc_first_step _ _ _ (map_cycle_back _ _ _ Hc Hreach)) as (z & Hz & Hcur).
  case_decide; [done|]. rewrite Hcur.
  case_decide; [done|]. apply IH. eapply rtc_r; [done|]. by split.
Qed.

Lemma _check_no_cycles_false toks :
  _check_no_cycles toks = false ↔ map_cycle (token_heads_of toks).
Proof.
  unfold _check_no_cycles. cbn zeta.
  set (heads := token_heads_of toks).
  destruct (for_start_terminates heads toks) as [b Hb]. rewrite Hb. split.
  - intros ->. apply for_start_false in Hb as (t & _ & Ht).
    eapply while_loop_false; [|done]. set_solver.
  - intros [x Hc]. destruct b; [|done]. exfalso.
    destruct (tc_first_step _ _ _ Hc) as (z & _ & Hz).
    apply token_heads_of_Some in Hz as (t & Ht & <- & _).
    by eapply (while_loop_on_cycle heads _ Hc), for_start_true.
Qed.

Lemma head_step_retarget toks t u u' :
  tc (head_step toks) t u → u' ∈ toks → Token.id u' = Token.id u →
  tc (head_step toks) t u'.
Proof.
  intros Htu Hu' Hid.
  assert (∀ s, head_step toks s u → head_step toks s u') as Hre.
  { intros s (? & ? & ? & ?). repeat split; try done. congruence. }
  induction Htu as [t u Hs|t w u Hs Hw IH].
  - apply tc_once. by apply Hre.
  - eapply tc_l; [done|]. by apply IH.
Qed.

Lemma map_chain_head_chain toks a b :
  let heads := token_heads_of toks in
  tc (map_step heads) a b → is_Some (heads !! b) →
  ∀ ta, ta ∈ toks → Token.id ta = a → heads !! a = Some (Token.head ta) →
  ∃ tb, tb ∈ toks ∧ Token.id tb = b ∧ tc (head_step toks) ta tb.
Proof.
  cbn zeta. intros Hab.
  induction Hab as [a b [Ha Hs]|a c b [Ha Hs] Hcb IH]; intros [hb Hb] ta Hta Hid Hhd.
  - destruct (token_heads_of_Some _ _ _ Hb) as (tb & Htb & Hidb & _).
    exists tb. repeat split; try done. apply tc_once.
    repeat split; try done; congruence.
  - destruct (tc_first_step _ _ _ Hcb) as (w & _ & Hc).
    destruct (token_heads_of_Some _ _ _ Hc) as (tc' & Htc & Hidc & Hhc).
    destruct (IH (ex_intro _ hb Hb) tc' Htc Hidc) as (tb & ? & ? & ?); [congruence|].
    exists tb. repeat split; try done. eapply tc_l; [|done].
    repeat split; try done; congruence.
Qed.

(** A cycle of the dict is a cycle of the head chain of the tokens. *)
Lemma map_cycle_head_cycle toks :
  map_cycle (token_heads_of toks) → head_cycle toks.
Proof.
  intros [x Hc]. destruct (tc_first_step _ _ _ Hc) as (z & _ & Hz).
  destruct (token_heads_of_Some _ _ _ Hz) as (t & Ht & Hid & Hhd).
  destruct (map_chain_head_chain toks x x Hc (ex_intro _ z Hz) t Ht Hid)
    as (u & Hu & Hidu & Htu); [congruence|].
  exists t. eapply head_step_retarget; [done..|congruence].
Qed.

(** With pairwise distinct ids the two notions agree. *)
Lemma head_cycle_map_cycle toks :
  NoDup (map Token.id toks) → head_cycle toks → map_cycle (token_heads_of toks).
Proof.
  intros Hnd [t Ht]. exists (Token.id t).
  eapply (tc_congruence Token.id); [|done].
  intros u u' (Hu & Hu' & Hnz & Hhd). split; [done|].
  rewrite <- Hhd. by apply token_heads_of_NoDup.
Qed.

(** ** The diagnostics of each check *)

Lemma head_errors_bind ids toks :
  head_errors ids toks
  = toks ≫= (λ t, if decide (Token.head t ≠ 0 ∧ Token.head t ∉ ids)
                   then [msg_invalid_head (Token.id t) (Token.head t)] else []).
Proof.
  induction toks as [|t toks IH] using rev_ind; [done|].
  unfold head_errors, check_heads. rewrite foldl_app, bind_app, <- IH. cbn [foldl].
  fold (check_heads ids toks {| errors := [] |}).
  rewrite bind_cons; simpl (mbind _ []); rewrite app_nil_r.
  cbn beta.
  destruct (decide (Token.head t ≠ 0 ∧ Token.head t ∉ ids));
    cbn [errors_append errors]; fold (head_errors ids toks);
    by rewrite ?app_nil_r.
Qed.
Lemma field_errors_bind toks :
  field_errors toks
  = toks ≫= (λ t, errors (check_fields_token {| errors := [] |} t)).
Proof.
  induction toks as [|t toks IH] using rev_ind; [done|].
  unfold field_errors, check_fields. rewrite foldl_app, bind_app, <- IH. cbn [foldl].
  fold (check_fields toks {| errors := [] |}).
  rewrite check_fields_token_errors. fold (field_errors toks).
  by rewrite bind_cons; simpl (mbind _ []); rewrite app_nil_r.
Qed.

Lemma line_errors_not_cycle item m : m ∈ line_errors item → m ≠ msg_cycle.
Proof.
  unfold line_errors, parse_line. destruct item as [n line].
  destruct (Py.split Py.tab line)
    as [|a [|b [|c [|d [|e [|g [|h [|i [|j [|k [|]]]]]]]]]]];
    cbn [frame_error errors_append this errors empty_frame app];
    try (intros ->%list_elem_of_singleton; discriminate).
  destruct (_ || _); [cbn; by intros ?%elem_of_nil|].
  destruct (Py.int a), (Py.int h); cbn; try (by intros ?%elem_of_nil);
    intros ->%list_elem_of_singleton; discriminate.
Qed.

Lemma root_errors_not_cycle rts m : m ∈ root_errors rts → m ≠ msg_cycle.
Proof.
  unfold root_errors, check_roots. destruct rts as [|? [|? ?]]; cbn;
    try (by intros ?%elem_of_nil); intros ->%list_elem_of_singleton; discriminate.
Qed.

Lemma head_errors_not_cycle ids toks m : m ∈ head_errors ids toks → m ≠ msg_cycle.
Proof.
  rewrite head_errors_bind. intros (t & Hm & _)%list_elem_of_bind.
  case_decide; [|by apply elem_of_nil in Hm].
  apply list_elem_of_singleton in Hm as ->. discriminate.
Qed.

Lemma field_errors_not_cycle toks m : m ∈ field_errors toks → m ≠ msg_cycle.
Proof.
  rewrite field_errors_bind. intros (t & Hm & _)%list_elem_of_bind.
  unfold check_fields_token in Hm.
  destruct (missing (Token.form t)), (missing (Token.upos t)),
    (missing (Token.deprel t)); cbn in Hm;
    repeat (apply elem_of_cons in Hm as [->|Hm]; [discriminate|]);
    by apply elem_of_nil in Hm.
Qed.

Lemma filter_none {A} (P : A → Prop) `{∀ x, Decision (P x)} (l : list A) :
  (∀ x, x ∈ l → ¬ P x) → filter P l = [].
Proof.
  intros Hl. induction l as [|x l IH]; [done|].
  rewrite filter_cons_False; [|apply Hl; left].
  apply IH. intros y Hy. apply Hl. by right.
Qed.

(** How often the cycle diagnostic occurs: once if the walk found a cycle,
    never otherwise. *)
Lemma cycle_diagnostic_count self line rest sent_id :
  filter (λ m, m = msg_cycle) (errors (validate_sentence self (line :: rest) sent_id).2)
  = cycle_errors (structural_tokens (line :: rest)).
Proof.
  rewrite validate_sentence_errors. cbn zeta. rewrite !filter_app.
  rewrite (filter_none _ (_ ≫= _)).
  2:{ intros m (item & Hm & _)%list_elem_of_bind. by apply line_errors_not_cycle in Hm. }
  rewrite (filter_none _ (root_errors _)) by apply root_errors_not_cycle.
  rewrite (filter_none _ (head_errors _ _)) by apply head_errors_not_cycle.
  rewrite (filter_none _ (field_errors _)) by apply field_errors_not_cycle.
  rewrite app_nil_r. cbn [app].
  unfold cycle_errors, check_cycles. by destruct (_check_no_cycles _).
Qed.

Lemma structural_tokens_nil : structural_tokens [] = [].
Proof. reflexivity. Qed.

Lemma elem_of_ids (toks : list Token.t) (x : Z) :
  x ∈ (list_to_set (map Token.id toks) : gset Z) ↔ ∃ t, t ∈ toks ∧ Token.id t = x.
Proof.
  rewrite elem_of_list_to_set, list_elem_of_fmap.
  split; [intros (t & -> & ?)|intros (t & ? & <-)]; by exists t.
Qed.

(** ** The validator: the claims *)

Lemma in_errors_head self line rest sent_id m :
  let toks := structural_tokens (line :: rest) in
  m ∈ head_errors (list_to_set (map Token.id toks)) toks →
  m ∈ errors (validate_sentence self (line :: rest) sent_id).2.
Proof.
  cbn zeta. intros Hm. rewrite validate_sentence_errors. cbn zeta.
  rewrite !elem_of_app. auto.
Qed.

Lemma in_errors_root self line rest sent_id m :
  m ∈ root_errors (map Token.id (root_tokens (line :: rest))) →
  m ∈ errors (validate_sentence self (line :: rest) sent_id).2.
Proof.
  intros Hm. rewrite validate_sentence_errors. cbn zeta.
  rewrite !elem_of_app. auto.
Qed.

(** C3.  A structural token whose head is neither 0 nor the id of a
    structural token of the sentence makes [validate_sentence] fail, and the
    diagnostics contain the invalid-head message with the id of that token
    and its head. *)
Theorem invalid_head_reported self sentence_lines sent_id t :
  t ∈ structural_tokens sentence_lines →
  invalid_head (structural_tokens sentence_lines) t →
  (validate_sentence self sentence_lines sent_id).1 = false
  ∧ msg_invalid_head (Token.id t) (Token.head t)
    ∈ get_errors (validate_sentence self sentence_lines sent_id).2.
Proof.
  intros Ht [Hnz Hno].
  destruct sentence_lines as [|line rest]; [by apply elem_of_nil in Ht|].
  assert (msg_invalid_head (Token.id t) (Token.head t)
          ∈ get_errors (validate_sentence self (line :: rest) sent_id).2) as Hm.
  { apply in_errors_head. cbn zeta. rewrite head_errors_bind.
    apply list_elem_of_bind. exists t. split; [|done].
    rewrite decide_True; [left|]. split; [done|].
    rewrite elem_of_ids. intros (t' & Ht' & Hid). by apply (Hno t'). }
  split; [|done]. by eapply validate_sentence_fail.
Qed.

Lemma invalid_head_reported_witness :
  ∃ t, t ∈ structural_tokens scenario_C
    ∧ invalid_head (structural_tokens scenario_C) t
    ∧ (validate_sentence __init__ scenario_C None).1 = false
    ∧ "Token 1 has invalid head 5"
      ∈ get_errors (validate_sentence __init__ scenario_C None).2.
Proof.
  exists (Token.mk 1 "Dog" "_" "NOUN" 5 "nsubj" 1).
  assert (structural_tokens scenario_C
          = [Token.mk 1 "Dog" "_" "NOUN" 5 "nsubj" 1;
             Token.mk 2 "barks" "_" "VERB" 0 "root" 2]) as Htoks
    by (vm_compute; reflexivity).
  assert (Token.mk 1 "Dog" "_" "NOUN" 5 "nsubj" 1 ∈ structural_tokens scenario_C)
    as Hin by (rewrite Htoks; left).
  assert (invalid_head (structural_tokens scenario_C)
            (Token.mk 1 "Dog" "_" "NOUN" 5 "nsubj" 1)) as Hinv.
  { rewrite Htoks. split; [done|]. intros t' Ht'.
    apply elem_of_cons in Ht' as [->|Ht']; [done|].
    apply list_elem_of_singleton in Ht' as ->. done. }
  split; [done|]. split; [done|].
  exact (invalid_head_reported __init__ scenario_C None _ Hin Hinv).
Defined.

(** C2, as amended.  For every sentence of at least one line whose
    structural tokens include no token with head 0, or more than one,
    [validate_sentence] fails and the diagnostics contain the root-count
    message: "No root found" for none, and for several the message that
    lists the ids of all tokens with head 0, in order (for scenario B the
    ids [[1, 2]]). *)
Theorem root_count_reported :
  (∀ self sentence_lines sent_id,
     sentence_lines ≠ [] →
     length (root_tokens sentence_lines) ≠ 1%nat →
     let r := validate_sentence self sentence_lines sent_id in
     r.1 = false
     ∧ (root_tokens sentence_lines = [] → msg_no_root ∈ get_errors (r.2))
     ∧ ((1 < length (root_tokens sentence_lines))%nat →
        msg_multiple_roots (map Token.id (root_tokens sentence_lines))
        ∈ get_errors (r.2)))
  ∧ validate_sentence __init__ scenario_B None
    = (false, {| errors := ["Multiple roots found: tokens [1, 2] all have head=0"] |}).
Proof.
  split; [|by vm_compute].
  intros self [|line rest] sent_id Hne Hlen; [done|]. cbn zeta.
  assert (∃ m, m ∈ root_errors (map Token.id (root_tokens (line :: rest)))
               ∧ (root_tokens (line :: rest) = [] → m = msg_no_root)
               ∧ ((1 < length (root_tokens (line :: rest)))%nat →
                  m = msg_multiple_roots (map Token.id (root_tokens (line :: rest)))))
    as (m & Hm & Hnone & Hmany).
  { destruct (root_tokens (line :: rest)) as [|r1 [|r2 rs]] eqn:Hr; [| done |].
    - exists msg_no_root. split; [left|]. split; [done|]. cbn. lia.
    - eexists. split; [left|]. split; [done|]. done. }
  apply (in_errors_root self _ _ sent_id) in Hm.
  split; [by eapply validate_sentence_fail|].
  split; intros H; [specialize (Hnone H)|specialize (Hmany H)]; by subst m.
Qed.

Lemma root_count_reported_witness :
  scenario_B ≠ [] ∧ length (root_tokens scenario_B) ≠ 1%nat
  ∧ (validate_sentence __init__ scenario_B None).1 = false.
Proof.
  assert (scenario_B ≠ []) as Hne by done.
  assert (length (root_tokens scenario_B) ≠ 1%nat) as Hlen by (vm_compute; lia).
  split; [done|]. split; [done|].
  exact (proj1 (proj1 root_count_reported __init__ scenario_B None Hne Hlen)).
Defined.

(** C2 as stated fails on the sentence of no line: it has no token with
    head 0, and its only diagnostic is "Empty sentence". *)
Lemma root_count_empty_sentence :
  root_tokens [] = []
  ∧ (validate_sentence __init__ [] None).1 = false
  ∧ get_errors ((validate_sentence __init__ [] None).2) = [msg_empty_sentence]
  ∧ (msg_no_root ∉ get_errors ((validate_sentence __init__ [] None).2))
  ∧ (∀ ids, msg_multiple_roots ids ∉ get_errors ((validate_sentence __init__ [] None).2)).
Proof.
  split; [done|]. split; [done|]. split; [done|]. cbn.
  split; [|intros ids]; intros H%list_elem_of_singleton; discriminate H.
Qed.

(** C10.  The uniqueness of token ids is not checked: a sentence with two
    structural lines of the same id (the id 2, twice, with the single root
    as head and all required fields) passes with no diagnostic. *)
Theorem duplicate_ids_accepted :
  ∃ sentence_lines t1 t2,
    structural_tokens sentence_lines !! 1%nat = Some t1
    ∧ structural_tokens sentence_lines !! 2%nat = Some t2
    ∧ Token.id t1 = Token.id t2
    ∧ Token.id t1 ≠ 0 ∧ Token.head t1 ≠ 0
    ∧ validate_sentence __init__ sentence_lines None = (true, {| errors := [] |}).
Proof.
  exists duplicate_id,
    (Token.mk 2 "Dog" "_" "NOUN" 1 "nsubj" 2), (Token.mk 2 "Cat" "_" "NOUN" 1 "nsubj" 3).
  by vm_compute.
Qed.

(** C9.  [validate_sentence] keeps no state between calls: two calls on
    the same object with the same lines return the same verdict and leave
    the same diagnostics, whatever was validated before the first and
    between the two; each call starts from an empty list. *)
Theorem validate_sentence_stateless self before between sentence_lines sent_id :
  let first := validate_sentence (validate_all self before) sentence_lines sent_id in
  let second := validate_sentence (validate_all first.2 between) sentence_lines sent_id in
  first.1 = second.1
  ∧ get_errors first.2 = get_errors second.2
  ∧ first = validate_sentence __init__ sentence_lines sent_id.
Proof. by cbn zeta. Qed.

Lemma map_cycle_empty : ¬ map_cycle (token_heads_of []).
Proof.
  intros [x (z & _ & Hz)%tc_first_step].
  unfold token_heads_of in Hz. cbn in Hz. by rewrite lookup_empty in Hz.
Qed.

Lemma for_start_stops fuel heads before t after :
  for_start fuel heads before = Some true →
  while_loop fuel heads ∅ (Token.id t) = Some false →
  for_start fuel heads (before ++ t :: after) = Some false.
Proof.
  intros Hb Ht. induction before as [|u before IH]; cbn [for_start app].
  - by rewrite Ht.
  - cbn [for_start] in Hb.
    destruct (while_loop fuel heads ∅ (Token.id u)) as [[|]|]; try done.
    by apply IH.
Qed.

(** C1, as amended.  When the dict of the walk (each structural id with the
    head of the last token of that id) has a cycle that does not pass
    through 0, and so whenever the structural ids are pairwise distinct and
    the head chain of the tokens has such a cycle (a token that is its own
    head, the mutual reference of scenario D), [validate_sentence] fails
    and the diagnostics contain the cycle message, exactly once.  The loop
    over the start tokens returns at the first walk that finds a cycle,
    whatever tokens follow. *)
Theorem cycle_detected :
  (∀ self sentence_lines sent_id,
     let toks := structural_tokens sentence_lines in
     map_cycle (token_heads_of toks) ∨ (NoDup (map Token.id toks) ∧ head_cycle toks) →
     let r := validate_sentence self sentence_lines sent_id in
     r.1 = false
     ∧ msg_cycle ∈ get_errors (r.2)
     ∧ length (filter (λ m, m = msg_cycle) (get_errors (r.2))) = 1%nat)
  ∧ (∀ fuel heads before t after,
       for_start fuel heads before = Some true →
       while_loop fuel heads ∅ (Token.id t) = Some false →
       for_start fuel heads (before ++ t :: after) = Some false).
Proof.
  split; [|apply for_start_stops].
  intros self sentence_lines sent_id. cbn zeta. intros Hc.
  assert (map_cycle (token_heads_of (structural_tokens sentence_lines))) as Hm.
  { destruct Hc as [?|[? ?]]; [done|by apply head_cycle_map_cycle]. }
  clear Hc. destruct sentence_lines as [|line rest]; [by apply map_cycle_empty in Hm|].
  assert (filter (λ m, m = msg_cycle)
            (get_errors (validate_sentence self (line :: rest) sent_id).2)
          = [msg_cycle]) as Hf.
  { unfold get_errors. rewrite cycle_diagnostic_count.
    unfold cycle_errors, check_cycles.
    apply _check_no_cycles_false in Hm. by rewrite Hm. }
  assert (msg_cycle ∈ get_errors (validate_sentence self (line :: rest) sent_id).2) as Hin.
  { eapply (list_elem_of_filter (λ m, m = msg_cycle)). rewrite Hf. left. }
  split; [by eapply validate_sentence_fail|]. split; [done|]. by rewrite Hf.
Qed.

Lemma cycle_detected_witness :
  (NoDup (map Token.id (structural_tokens scenario_D))
   ∧ head_cycle (structural_tokens scenario_D))
  ∧ (validate_sentence __init__ scenario_D None).1 = false
  ∧ msg_cycle ∈ get_errors ((validate_sentence __init__ scenario_D None).2).
Proof.
  assert (structural_tokens scenario_D
          = [Token.mk 1 "Dog" "_" "NOUN" 2 "nsubj" 1;
             Token.mk 2 "barks" "_" "VERB" 1 "dep" 2]) as Htoks
    by (vm_compute; reflexivity).
  assert (NoDup (map Token.id (structural_tokens scenario_D))
          ∧ head_cycle (structural_tokens scenario_D)) as Hc.
  { rewrite Htoks. split.
    - cbn. apply NoDup_cons. split; [|apply NoDup_singleton].
      intros H%list_elem_of_singleton. discriminate H.
    - exists (Token.mk 1 "Dog" "_" "NOUN" 2 "nsubj" 1).
      apply tc_l with (Token.mk 2 "barks" "_" "VERB" 1 "dep" 2); [|apply tc_once];
        (split; [|split; [|split]]); cbn; try done;
        try (left; fail); right; left. }
  split; [done|].
  pose proof (proj1 cycle_detected __init__ scenario_D None (or_intror Hc))
    as (H1 & H2 & _).
  by split.
Defined.

(** C1 as stated fails when an id occurs twice: in [self_head_duplicate]
    the first token is its own head (its id is 1, not 0), so the head chain
    of the tokens has a cycle, and the sentence passes with no
    diagnostic. *)
Lemma cycle_missed_on_duplicate_id :
  (∃ t, t ∈ structural_tokens self_head_duplicate
        ∧ Token.id t ≠ 0 ∧ Token.head t = Token.id t)
  ∧ head_cycle (structural_tokens self_head_duplicate)
  ∧ validate_sentence __init__ self_head_duplicate None = (true, {| errors := [] |}).
Proof.
  assert (structural_tokens self_head_duplicate
          = [Token.mk 1 "Dog" "_" "NOUN" 1 "dep" 1;
             Token.mk 1 "barks" "_" "VERB" 0 "root" 2]) as ->
    by (vm_compute; reflexivity).
  split; [|split; [|by vm_compute]].
  - eexists. split; [left|]. by cbn.
  - eexists. apply tc_once. split; [left|]. split; [left|]. by cbn.
Qed.

(** ** Sentences that pass *)

Lemma well_formed_line_errors n line :
  well_formed_line line → line_errors (n, line) = [].
Proof.
  intros (a & b & c & d & e & g & h & i & j & k & Hs & Hok).
  unfold line_errors, parse_line. rewrite Hs.
  destruct Hok as [->|[[ia ->] [ih ->]]]; [done|].
  by destruct (_ || _).
Qed.

Lemma well_formed_lines_errors sentence_lines : ∀ n,
  Forall well_formed_line sentence_lines →
  Py.enumerate n sentence_lines ≫= line_errors = [].
Proof.
  induction sentence_lines as [|line rest IH]; intros n Hwf; [done|].
  apply Forall_cons in Hwf as [Hl Hrest].
  cbn [Py.enumerate]. rewrite bind_cons, well_formed_line_errors, IH; done.
Qed.

Lemma head_errors_nil toks :
  (∀ t, t ∈ toks → ¬ invalid_head toks t) →
  head_errors (list_to_set (map Token.id toks)) toks = [].
Proof.
  intros Hok. rewrite head_errors_bind.
  assert (∀ l, (∀ t, t ∈ l → t ∈ toks) →
    l ≫= (λ t, if decide (Token.head t ≠ 0
                           ∧ Token.head t ∉ (list_to_set (map Token.id toks) : gset Z))
               then [msg_invalid_head (Token.id t) (Token.head t)] else []) = [])
    as Hgen; [|by apply Hgen].
  induction l as [|t l IH]; intros Hl; [done|].
  rewrite bind_cons, IH by (intros; apply Hl; by right).
  rewrite decide_False; [done|]. intros [Hnz Hno].
  apply (Hok t); [apply Hl; left|]. split; [done|].
  intros t' Ht' Hid. apply Hno, elem_of_ids. by exists t'.
Qed.

Lemma field_errors_nil toks :
  (∀ t, t ∈ toks → populated t) → field_errors toks = [].
Proof.
  intros Hok. rewrite field_errors_bind.
  induction toks as [|t toks IH]; [done|].
  rewrite bind_cons, IH by (intros; apply Hok; by right).
  destruct (Hok t) as (Hf & Hu & Hd); [left|].
  unfold check_fields_token. by rewrite Hf, Hu, Hd.
Qed.

Lemma cycle_errors_nil toks : ¬ head_cycle toks → cycle_errors toks = [].
Proof.
  intros Hno. unfold cycle_errors, check_cycles.
  destruct (_check_no_cycles toks) eqn:Hc; [done|].
  exfalso. by apply Hno, map_cycle_head_cycle, _check_no_cycles_false.
Qed.

(** With distinct ids, a walk that finds nothing shows there is no cycle. *)
Lemma no_head_cycle_by_walk toks :
  NoDup (map Token.id toks) → _check_no_cycles toks = true → ¬ head_cycle toks.
Proof.
  intros Hnd Hw Hc. apply head_cycle_map_cycle, _check_no_cycles_false in Hc; [|done].
  congruence.
Qed.

(** C4, as amended.  [validate_sentence] passes exactly when it leaves no
    diagnostic.  In particular a sentence of at least one line passes with
    no diagnostic when every line has ten fields and an integer id and head
    (or a span or empty-node id), exactly one token has head 0, no head is
    invalid, the head chain has no cycle, and [form], [upos] and [deprel]
    of every structural token are neither empty nor the underscore. *)
Theorem validate_sentence_pass :
  (∀ self sentence_lines sent_id,
     (validate_sentence self sentence_lines sent_id).1 = true
     ↔ get_errors ((validate_sentence self sentence_lines sent_id).2) = [])
  ∧ (∀ self sentence_lines sent_id,
       let toks := structural_tokens sentence_lines in
       sentence_lines ≠ [] →
       Forall well_formed_line sentence_lines →
       length (root_tokens sentence_lines) = 1%nat →
       (∀ t, t ∈ toks → ¬ invalid_head toks t) →
       ¬ head_cycle toks →
       (∀ t, t ∈ toks → populated t) →
       validate_sentence self sentence_lines sent_id = (true, {| errors := [] |})).
Proof.
  split; [apply validate_sentence_verdict|].
  intros self [|line rest] sent_id toks Hne Hwf Hroot Hheads Hcyc Hfields; [done|].
  assert (errors (validate_sentence self (line :: rest) sent_id).2 = []) as He.
  { rewrite validate_sentence_errors. cbn zeta. fold toks.
    rewrite well_formed_lines_errors, head_errors_nil, cycle_errors_nil,
      field_errors_nil by done.
    destruct (root_tokens (line :: rest)) as [|? [|? ?]]; done. }
  pose proof (proj2 (validate_sentence_verdict self (line :: rest) sent_id) He) as Hv.
  destruct (validate_sentence self (line :: rest) sent_id) as [b [errs]].
  cbn in *. by subst.
Qed.

Lemma validate_sentence_pass_witness :
  validate_sentence __init__ scenario_A None = (true, {| errors := [] |}).
Proof.
  assert (structural_tokens scenario_A
          = [Token.mk 1 "Dog" "_" "NOUN" 2 "nsubj" 1;
             Token.mk 2 "barks" "_" "VERB" 0 "root" 2]) as Htoks
    by (vm_compute; reflexivity).
  apply (proj2 validate_sentence_pass __init__ scenario_A None).
  - done.
  - repeat apply Forall_cons_2; [..|apply Forall_nil_2];
      do 10 eexists; (split; [vm_compute; reflexivity|]);
      right; split; eexists; vm_compute; reflexivity.
  - by vm_compute.
  - rewrite Htoks. intros t Ht [Hnz Hno].
    apply elem_of_cons in Ht as [->|Ht].
    + apply (Hno (Token.mk 2 "barks" "_" "VERB" 0 "root" 2)); [right; left|done].
    + apply list_elem_of_singleton in Ht as ->. done.
  - apply no_head_cycle_by_walk; [|by vm_compute].
    rewrite Htoks. cbn. apply NoDup_cons. split; [|apply NoDup_singleton].
    intros H%list_elem_of_singleton. discriminate H.
  - rewrite Htoks. intros t Ht.
    apply elem_of_cons in Ht as [->|Ht]; [by vm_compute|].
    apply list_elem_of_singleton in Ht as ->. by vm_compute.
Defined.

(** C4 as stated fails on a well-formed root line followed by a line of one
    field: the only structural token is the root, with its fields
    populated, and the sentence fails on the field count of the second
    line. *)
Lemma pass_conditions_not_sufficient :
  let toks := structural_tokens root_and_junk in
  root_and_junk ≠ []
  ∧ length (root_tokens root_and_junk) = 1%nat
  ∧ (∀ t, t ∈ toks → ¬ invalid_head toks t)
  ∧ ¬ head_cycle toks
  ∧ (∀ t, t ∈ toks → populated t)
  ∧ validate_sentence __init__ root_and_junk None
    = (false, {| errors := ["Line 2: Expected 10 fields, got 1"] |}).
Proof.
  cbn zeta.
  assert (structural_tokens root_and_junk
          = [Token.mk 1 "barks" "_" "VERB" 0 "root" 1]) as Htoks
    by (vm_compute; reflexivity).
  split; [done|]. split; [by vm_compute|]. rewrite Htoks.
  split; [|split; [|split; [|by vm_compute]]].
  - intros t ->%list_elem_of_singleton [Hnz _]. done.
  - apply no_head_cycle_by_walk; [|by vm_compute].
    cbn. apply NoDup_singleton.
  - intros t ->%list_elem_of_singleton. by vm_compute.
Qed.

(** ** Field counts and marker lines *)

Lemma line_tokens_line_num n line t : t ∈ line_tokens (n, line) → Token.line_num t = n.
Proof.
  unfold line_tokens, parse_line.
  destruct (Py.split Py.tab line)
    as [|a [|b [|c [|d [|e [|g [|h [|i [|j [|k [|]]]]]]]]]]];
    cbn [frame_error tokens empty_frame]; try by intros ?%elem_of_nil.
  destruct (_ || _); [by intros ?%elem_of_nil|].
  destruct (Py.int a), (Py.int h); cbn; try by intros ?%elem_of_nil.
  by intros ->%list_elem_of_singleton.
Qed.

Lemma bad_count_line n line :
  length (Py.split Py.tab line) ≠ 10%nat →
  line_tokens (n, line) = []
  ∧ line_errors (n, line) = [msg_field_count n (length (Py.split Py.tab line))].
Proof.
  unfold line_tokens, line_errors, parse_line.
  by destruct (Py.split Py.tab line)
    as [|a [|b [|c [|d [|e [|g [|h [|i [|j [|k [|]]]]]]]]]]].
Qed.

Lemma marker_line f n line :
  ten_fields line → marker_id line → parse_line f (n, line) = f.
Proof.
  unfold ten_fields, marker_id, parse_line.
  intros Hten (a' & rest & Hs & Hm). rewrite Hs in *.
  destruct rest as [|b [|c [|d [|e [|g [|h [|i [|j [|k [|]]]]]]]]]]; try done.
  by rewrite Hm.
Qed.

(** C5.  A line whose tab-split field count is not 10, whatever its id
    field, records the field-count diagnostic with its line number and the
    count, contributes no token, and makes the sentence fail.  A line of
    ten fields whose id contains a hyphen or a period leaves the state of
    the loop as it is: no diagnostic, no token, no root, no id; the
    sentence is validated as if the line were not there, the other lines
    keeping their numbers. *)
Theorem field_count_and_markers :
  (∀ self sentence_lines sent_id (i : nat) line,
     sentence_lines !! i = Some line →
     length (Py.split Py.tab line) ≠ 10%nat →
     let r := validate_sentence self sentence_lines sent_id in
     r.1 = false
     ∧ msg_field_count (Z.of_nat i + 1) (length (Py.split Py.tab line))
       ∈ get_errors (r.2)
     ∧ (∀ t, t ∈ structural_tokens sentence_lines →
             Token.line_num t ≠ Z.of_nat i + 1))
  ∧ (∀ f n line, ten_fields line → marker_id line → parse_line f (n, line) = f)
  ∧ (∀ self before line after sent_id,
       ten_fields line → marker_id line →
       validate_sentence self (before ++ line :: after) sent_id
       = run_checks
           (foldl parse_line empty_frame
              (Py.enumerate 1 before
               ++ Py.enumerate (Z.of_nat (length before) + 2) after))
       ∧ (∀ t, t ∈ structural_tokens (before ++ line :: after) →
               Token.line_num t ≠ Z.of_nat (length before) + 1)).
Proof.
  assert (∀ sentence_lines (i : nat) line,
            sentence_lines !! i = Some line → line_tokens (1 + Z.of_nat i, line) = [] →
            ∀ t, t ∈ structural_tokens sentence_lines →
                 Token.line_num t ≠ Z.of_nat i + 1) as Hnone.
  { intros ls i line Hi Hnil t Ht Hn. rewrite structural_tokens_bind in Ht.
    apply list_elem_of_bind in Ht as ([k l'] & Ht & Hitem).
    apply enumerate_elem in Hitem as (i' & Hi' & ->).
    pose proof (line_tokens_line_num _ _ _ Ht) as Hk.
    assert (i' = i) as -> by lia. rewrite Hi in Hi'. injection Hi' as <-.
    rewrite Hnil in Ht. by apply elem_of_nil in Ht. }
  split; [|split].
  - intros self ls sent_id i line Hi Hbad. cbn zeta.
    destruct (bad_count_line (1 + Z.of_nat i) line Hbad) as [Htok Herr].
    destruct ls as [|l0 ls0] eqn:Hls; [done|]. rewrite <- Hls in *.
    assert (msg_field_count (Z.of_nat i + 1) (length (Py.split Py.tab line))
            ∈ get_errors (validate_sentence self ls sent_id).2) as Hm.
    { unfold get_errors. rewrite Hls, validate_sentence_errors. cbn zeta.
      rewrite <- Hls. apply elem_of_app. left.
      apply list_elem_of_bind. exists (1 + Z.of_nat i, line).
      split; [|by apply enumerate_lookup].
      rewrite Herr, Z.add_comm. left. }
    split; [by eapply validate_sentence_fail|]. split; [done|]. by eapply Hnone.
  - apply marker_line.
  - intros self before line after sent_id Hten Hmark. split.
    + unfold validate_sentence, parse_lines.
      destruct (before ++ line :: after) eqn:Hl; [by destruct before|].
      rewrite <- Hl, enumerate_app, !foldl_app. cbn [Py.enumerate foldl].
      rewrite marker_line by done. do 3 f_equal. lia.
    + apply (Hnone _ (length before) line).
      * by rewrite lookup_app_r, Nat.sub_diag.
      * unfold line_tokens. by rewrite marker_line.
Qed.

Lemma field_count_and_markers_witness :
  (validate_sentence __init__ root_and_junk None).1 = false
  ∧ "Line 2: Expected 10 fields, got 1"
    ∈ get_errors ((validate_sentence __init__ root_and_junk None).2)
  ∧ parse_line empty_frame (1, span_line) = empty_frame.
Proof.
  assert (root_and_junk !! 1%nat = Some "junk") as Hi by done.
  assert (length (Py.split Py.tab "junk") ≠ 10%nat) as Hbad by (vm_compute; lia).
  assert (ten_fields span_line) as Hten by (vm_compute; reflexivity).
  assert (marker_id span_line) as Hmark
    by (do 2 eexists; split; vm_compute; reflexivity).
  destruct field_count_and_markers as (Hcount & Hskip & _).
  destruct (Hcount __init__ root_and_junk None 1%nat "junk" Hi Hbad) as (Hf & Hm & _).
  split; [done|]. split; [done|].
  exact (Hskip empty_frame 1 span_line Hten Hmark).
Defined.

(** ** The driver: counters *)

Lemma handle_sentence_counts verbose where_ d :
  let d' := handle_sentence verbose where_ d in
  total_sentences d' = total_sentences d + 1
  ∧ (valid_sentences d' = valid_sentences d + 1
       ∧ invalid_sentences d' = invalid_sentences d
     ∨ valid_sentences d' = valid_sentences d
       ∧ invalid_sentences d' = invalid_sentences d + 1).
Proof.
  cbn zeta. unfold handle_sentence.
  destruct (validate_sentence _ _ _) as [[|] v]; cbn; auto.
Qed.

Lemma read_line_counts verbose d item :
  let d' := read_line verbose d item in
  total_sentences d' - total_sentences d
  = (valid_sentences d' - valid_sentences d)
    + (invalid_sentences d' - invalid_sentences d)
  ∧ valid_sentences d ≤ valid_sentences d'
  ∧ invalid_sentences d ≤ invalid_sentences d'.
Proof.
  cbn zeta. unfold read_line. destruct item as [n line].
  destruct (Py.startswith "#" (Py.rstrip_nl line)); [cbn; lia|].
  case_bool_decide; [|cbn; lia].
  destruct (current_sentence d) eqn:Hs; [lia|].
  pose proof (handle_sentence_counts verbose
                (" (line ~" +:+ Py.str n +:+ ")") d) as Hh.
  cbn zeta in Hh. unfold reset_buffers. cbn. lia.
Qed.

Lemma end_of_stream_counts verbose d :
  let d' := end_of_stream verbose d in
  total_sentences d' - total_sentences d
  = (valid_sentences d' - valid_sentences d)
    + (invalid_sentences d' - invalid_sentences d)
  ∧ valid_sentences d ≤ valid_sentences d'
  ∧ invalid_sentences d ≤ invalid_sentences d'
  ∧ total_sentences d'
    = total_sentences d + (match current_sentence d with [] => 0 | _ => 1 end).
Proof.
  cbn zeta. unfold end_of_stream.
  destruct (current_sentence d) eqn:Hs; [lia|].
  pose proof (handle_sentence_counts verbose "" d) as Hh. cbn zeta in Hh. lia.
Qed.

Lemma feed_counts verbose items : ∀ d,
  let d' := foldl (read_line verbose) d items in
  total_sentences d' - total_sentences d
  = (valid_sentences d' - valid_sentences d)
    + (invalid_sentences d' - invalid_sentences d)
  ∧ valid_sentences d ≤ valid_sentences d'
  ∧ invalid_sentences d ≤ invalid_sentences d'.
Proof.
  induction items as [|item items IH]; intros d; cbn zeta; cbn [foldl]; [lia|].
  pose proof (IH (read_line verbose d item)) as H1. cbn zeta in H1.
  pose proof (read_line_counts verbose d item) as H2. cbn zeta in H2. lia.
Qed.

Lemma summary_state d :
  let d' := (summary d).1 in
  total_sentences d' = total_sentences d
  ∧ valid_sentences d' = valid_sentences d
  ∧ invalid_sentences d' = invalid_sentences d
  ∧ outfile d' = outfile d.
Proof.
  cbn zeta. unfold summary. cbn -[success_rate].
  by destruct (success_rate _ _).
Qed.

(** The counters add up, for every input. *)
Lemma counters_sum input_file verbose :
  total_sentences (clean_conllu_file input_file verbose).1
  = valid_sentences (clean_conllu_file input_file verbose).1
    + invalid_sentences (clean_conllu_file input_file verbose).1.
Proof.
  unfold clean_conllu_file.
  pose proof (summary_state (process_stream input_file verbose)) as Hs.
  cbn zeta in Hs. destruct Hs as (-> & -> & -> & _).
  unfold process_stream.
  set (items := Py.enumerate 1 (readlines (universal_newlines input_file))).
  pose proof (feed_counts verbose items initial_driver) as H1. cbn zeta in H1.
  pose proof (end_of_stream_counts verbose
                (foldl (read_line verbose) initial_driver items)) as H2.
  cbn zeta in H2. cbn in H1. lia.
Qed.

(** ** The driver: the summary *)







(** Scenario E: the valid sentence is kept, the counts are 2, 1 and 1, and
    the rate is 50.0%. *)
Example scenario_E_summary :
  let r := clean_conllu_file scenario_E false in
  outfile (r.1) = file_of_lines (scenario_A ++ [""])
  ∧ (total_sentences (r.1), valid_sentences (r.1), invalid_sentences (r.1)) = (2, 1, 1)
  ∧ last (stdout (r.1)) = Some "  Success rate: 50.0%"
  ∧ r.2 = None.
Proof. by vm_compute. Qed.

(** ** The driver: what is written *)

Lemma string_app_cons x (a b : string) : String x a +:+ b = String x (a +:+ b).
Proof. reflexivity. Qed.

Lemma string_app_nil_l (a : string) : "" +:+ a = a.
Proof. reflexivity. Qed.

Lemma string_app_assoc (a b c : string) : (a +:+ b) +:+ c = a +:+ (b +:+ c).
Proof. induction a as [|x a IH]; [done|]. by rewrite !string_app_cons, IH. Qed.

Lemma string_app_nil_r (a : string) : a +:+ "" = a.
Proof. induction a as [|x a IH]; [done|]. by rewrite string_app_cons, IH. Qed.

Lemma write_lines_app_out ls : ∀ out,
  write_lines ls out = out +:+ file_of_lines ls.
Proof.
  unfold file_of_lines, write_lines.
  induction ls as [|l ls IH]; intros out; cbn [foldl].
  - by rewrite string_app_nil_r.
  - rewrite IH, (IH ("" +:+ _)). by rewrite !string_app_nil_l, !string_app_assoc.
Qed.

Lemma file_of_lines_cons l ls :
  file_of_lines (l :: ls) = l +:+ String Py.nl (file_of_lines ls).
Proof.
  unfold file_of_lines at 1. unfold write_lines. cbn [foldl].
  fold (write_lines ls ("" +:+ l +:+ String Py.nl "")).
  rewrite write_lines_app_out.
  by rewrite string_app_nil_l, string_app_assoc, string_app_cons, string_app_nil_l.
Qed.

Lemma file_of_lines_app l1 l2 :
  file_of_lines (l1 ++ l2) = file_of_lines l1 +:+ file_of_lines l2.
Proof.
  induction l1 as [|l l1 IH]; [done|].
  cbn [app]. rewrite !file_of_lines_cons, IH.
  rewrite string_app_assoc. done.
Qed.

Lemma emit_valid out comments sentence :
  (validate_sentence __init__ sentence None).1 = true →
  emit out comments sentence
  = out +:+ file_of_lines (block_lines (comments, sentence)).
Proof.
  intros Hv. unfold emit, block_lines. rewrite Hv. cbn [fst snd].
  rewrite !write_lines_app_out, !file_of_lines_app, !string_app_assoc.
  done.
Qed.

Lemma emit_invalid out comments sentence :
  (validate_sentence __init__ sentence None).1 = false →
  emit out comments sentence = out.
Proof. intros Hv. unfold emit. by rewrite Hv. Qed.

Lemma view_handle_sentence verbose where_ d :
  outfile (handle_sentence verbose where_ d)
  = emit (outfile d) (current_comments d) (current_sentence d).
Proof.
  unfold handle_sentence, emit.
  change (validate_sentence (validator d) (current_sentence d) (sent_id d))
    with (validate_sentence __init__ (current_sentence d) None).
  by destruct (validate_sentence __init__ (current_sentence d) None) as [[|] v].
Qed.

Lemma view_read_line verbose d n raw :
  view (read_line verbose d (n, raw)) = view_step (view d) (Py.rstrip_nl raw).
Proof.
  unfold read_line, view_step, view.
  destruct (Py.startswith "#" (Py.rstrip_nl raw)); [done|].
  case_bool_decide; [|done].
  destruct (current_sentence d) eqn:Hs; [by rewrite Hs|].
  unfold reset_buffers. cbn [outfile current_comments current_sentence].
  by rewrite view_handle_sentence, Hs.
Qed.

Lemma view_feed verbose raws : ∀ n d,
  view (foldl (read_line verbose) d (Py.enumerate n raws))
  = foldl view_step (view d) (map Py.rstrip_nl raws).
Proof.
  induction raws as [|raw raws IH]; intros n d; [done|].
  cbn [Py.enumerate foldl map]. by rewrite IH, view_read_line.
Qed.

Lemma view_end_of_stream verbose d :
  outfile (end_of_stream verbose d) = view_end (view d).
Proof.
  unfold end_of_stream, view_end, view.
  destruct (current_sentence d) eqn:Hs; [done|].
  by rewrite view_handle_sentence, Hs.
Qed.

(** The output file, from the lines of the input. *)
Lemma output_file_view input_file verbose :
  output_file input_file verbose
  = view_end (foldl view_step ("", [], []) (stream_lines input_file)).
Proof.
  unfold output_file, clean_conllu_file.
  destruct (summary_state (process_stream input_file verbose)) as (_ & _ & _ & ->).
  unfold process_stream. by rewrite view_end_of_stream, view_feed.
Qed.

(** ** The driver: lines read and lines written *)

Lemma contains_app c (a b : string) :
  Py.contains c (a +:+ b) = Py.contains c a || Py.contains c b.
Proof.
  induction a as [|x a IH]; [done|].
  rewrite string_app_cons. cbn [Py.contains]. by case_decide.
Qed.

Lemma nl_ne_cr : Py.nl ≠ Py.cr.
Proof. unfold Py.nl, Py.cr. discriminate. Qed.

Lemma universal_newlines_no_cr s :
  Py.contains Py.cr (universal_newlines s) = false.
Proof.
  enough (Py.contains Py.cr (universal_newlines s) = false
          ∧ ∀ a, Py.contains Py.cr (universal_newlines (String a s)) = false)
    as [? _] by done.
  induction s as [|b r [IH1 IH2]].
  - split; [done|]. intros a. cbn [universal_newlines].
    destruct (decide (a = Py.cr)); cbn [Py.contains];
      rewrite decide_False by (done || apply nl_ne_cr); done.
  - split; [apply IH2|]. intros a.
    change (universal_newlines (String a (String b r)))
      with (if decide (a = Py.cr)
            then if decide (b = Py.nl)
                 then String Py.nl (universal_newlines r)
                 else String Py.nl (universal_newlines (String b r))
            else String a (universal_newlines (String b r))).
    destruct (decide (a = Py.cr)); [destruct (decide (b = Py.nl))|];
      cbn [Py.contains]; rewrite decide_False by (done || apply nl_ne_cr);
      auto.
Qed.

Lemma universal_newlines_id s :
  Py.contains Py.cr s = false → universal_newlines s = s.
Proof.
  induction s as [|a r IH]; [done|]. cbn [Py.contains universal_newlines].
  case_decide; [done|]. intros Hr. by rewrite IH.
Qed.

Lemma rstrip_nl_id body :
  Py.contains Py.nl body = false → Py.rstrip_nl body = body.
Proof.
  induction body as [|a r IH]; [done|]. cbn [Py.contains Py.rstrip_nl].
  case_decide as Ha; [done|]. intros Hr. rewrite IH by done.
  by destruct r.
Qed.

Lemma rstrip_nl_terminated body :
  Py.contains Py.nl body = false →
  Py.rstrip_nl (body +:+ String Py.nl "") = body.
Proof.
  induction body as [|a r IH]; [done|].
  rewrite string_app_cons. cbn [Py.contains Py.rstrip_nl].
  case_decide as Ha; [done|]. intros Hr. rewrite IH by done.
  by destruct r.
Qed.

(** Each line read is a body without line feed, with or (the last one)
    without its terminator. *)
Lemma readlines_shape s :
  Forall (λ raw, ∃ body, Py.contains Py.nl body = false
                         ∧ (raw = body +:+ String Py.nl "" ∨ raw = body))
    (readlines s).
Proof.
  induction s as [|a r IH]; cbn [readlines]; [constructor|].
  case_decide as Ha.
  - constructor; [|done]. exists "". split; [done|]. left. by rewrite Ha.
  - destruct (readlines r) as [|l ls].
    + constructor; [|done]. exists (String a ""). split; [|by right].
      cbn. by rewrite decide_False.
    + apply Forall_cons in IH as [(body & Hb & Hl) Hls].
      constructor; [|done]. exists (String a body). split.
      * cbn. by rewrite decide_False.
      * destruct Hl as [->| ->]; [left|right]; done.
Qed.

Lemma readlines_chars c s :
  Py.contains c s = false →
  Forall (λ raw, Py.contains c raw = false) (readlines s).
Proof.
  induction s as [|a r IH]; cbn [readlines Py.contains]; [constructor|].
  case_decide as Hc; [done|]. intros Hr. specialize (IH Hr).
  case_decide as Ha.
  - constructor; [|done]. cbn. by rewrite decide_False.
  - destruct (readlines r) as [|l ls].
    + constructor; [|done]. cbn. by rewrite decide_False.
    + apply Forall_cons in IH as [Hl Hls]. constructor; [|done].
      cbn. by rewrite decide_False.
Qed.

Lemma stream_lines_clean input_file :
  Forall clean_line (stream_lines input_file).
Proof.
  unfold stream_lines. apply Forall_fmap.
  pose proof (readlines_shape (universal_newlines input_file)) as Hshape.
  pose proof (readlines_chars Py.cr _ (universal_newlines_no_cr input_file)) as Hcr.
  induction Hshape as [|raw raws (body & Hb & Hraw) _ IH]; [constructor|].
  apply Forall_cons in Hcr as [Hc Hcr]. constructor; [|by apply IH].
  unfold clean_line. cbn [compose]. destruct Hraw as [->| ->].
  - rewrite rstrip_nl_terminated by done. split; [done|].
    rewrite contains_app in Hc. by apply orb_false_elim in Hc as [? _].
  - by rewrite rstrip_nl_id.
Qed.

Lemma readlines_terminated l rest :
  Py.contains Py.nl l = false →
  readlines (l +:+ String Py.nl rest) = (l +:+ String Py.nl "") :: readlines rest.
Proof.
  induction l as [|a l IH]; cbn [Py.contains].
  - intros _. rewrite !string_app_nil_l. cbn [readlines]. by rewrite decide_True.
  - case_decide as Ha; [done|]. intros Hl.
    rewrite !string_app_cons. cbn [readlines].
    rewrite decide_False by done. by rewrite IH.
Qed.

Lemma file_of_lines_no_cr ls :
  Forall clean_line ls → Py.contains Py.cr (file_of_lines ls) = false.
Proof.
  induction 1 as [|l ls [_ Hl] _ IH]; [done|].
  rewrite file_of_lines_cons, contains_app, Hl. cbn [Py.contains orb].
  by rewrite decide_False by apply nl_ne_cr.
Qed.

(** Reading back a file of clean lines gives these lines. *)
Lemma stream_lines_file_of_lines ls :
  Forall clean_line ls → stream_lines (file_of_lines ls) = ls.
Proof.
  intros Hls. unfold stream_lines.
  rewrite universal_newlines_id by by apply file_of_lines_no_cr.
  induction Hls as [|l ls [Hl _] _ IH]; [done|].
  rewrite file_of_lines_cons, readlines_terminated by done.
  cbn [map]. by rewrite IH, rstrip_nl_terminated.
Qed.

(** ** Idempotence of cleaning *)

Lemma line_class line : is_comment line ∨ is_blank line ∨ is_token_line line.
Proof.
  unfold is_comment, is_blank, is_token_line.
  destruct (Py.startswith "#" line); [by left|right].
  destruct (decide (Py.strip line = "")); [left|right]; done.
Qed.

Lemma cleaned_emit out comments sentence :
  cleaned out → Forall is_comment comments → Forall is_token_line sentence →
  sentence ≠ [] → Forall clean_line (comments ++ sentence) →
  cleaned (emit out comments sentence).
Proof.
  intros (blocks & Hok & ->) Hc Ht Hne Hcl.
  destruct ((validate_sentence __init__ sentence None).1) eqn:Hv.
  - rewrite emit_valid by done. exists (blocks ++ [(comments, sentence)]). split.
    + rewrite Forall_app, Forall_singleton. unfold block_ok. cbn [fst snd]. tauto.
    + by rewrite bind_app, bind_singleton, file_of_lines_app.
  - rewrite emit_invalid by done. by exists blocks.
Qed.

Lemma driver_inv_step s line :
  driver_inv s → clean_line line → driver_inv (view_step s line).
Proof.
  destruct s as [[out comments] sentence].
  intros (Hout & Hc & Ht & Hcl) Hline. unfold driver_inv in *. cbn [fst snd] in *.
  apply Forall_app in Hcl as [Hclc Hclt].
  unfold view_step.
  destruct (Py.startswith "#" line) eqn:Hhash; cbn [fst snd].
  - assert (is_comment line) by done.
    rewrite !Forall_app, !Forall_singleton. tauto.
  - case_bool_decide as Hblank.
    + destruct sentence as [|t ts] eqn:Hs; cbn [fst snd].
      * rewrite app_nil_r. tauto.
      * split; [|by repeat split].
        apply cleaned_emit; try done. by apply Forall_app.
    + assert (is_token_line line) by done. cbn [fst snd].
      rewrite !Forall_app, !Forall_singleton. tauto.
Qed.

Lemma driver_inv_feed ls : ∀ s,
  driver_inv s → Forall clean_line ls → driver_inv (foldl view_step s ls).
Proof.
  induction ls as [|l ls IH]; intros s Hs Hls; [done|].
  apply Forall_cons in Hls as [Hl Hls]. cbn [foldl].
  apply IH; [|done]. by apply driver_inv_step.
Qed.

Lemma driver_inv_end s : driver_inv s → cleaned (view_end s).
Proof.
  destruct s as [[out comments] sentence]. intros (Hout & Hc & Ht & Hcl).
  cbn [fst snd] in *. unfold view_end.
  destruct sentence as [|t ts] eqn:Hs; [done|]. by apply cleaned_emit.
Qed.

(** The output is a cleaned file. *)
Lemma output_file_cleaned input_file verbose :
  cleaned (output_file input_file verbose).
Proof.
  rewrite output_file_view. apply driver_inv_end, driver_inv_feed.
  - unfold driver_inv. cbn [fst snd app]. split; [|by repeat split].
    exists []. by split.
  - apply stream_lines_clean.
Qed.

Lemma feed_comments comments : ∀ out pending,
  Forall is_comment comments →
  foldl view_step (out, pending, []) comments = (out, pending ++ comments, []).
Proof.
  induction comments as [|c cs IH]; intros out pending Hc; cbn [foldl].
  - by rewrite app_nil_r.
  - apply Forall_cons in Hc as [Hc Hcs]. unfold view_step at 2.
    unfold is_comment in Hc. rewrite Hc, IH by done. by rewrite <- app_assoc.
Qed.

Lemma feed_tokens sentence : ∀ out comments pending,
  Forall is_token_line sentence →
  foldl view_step (out, comments, pending) sentence
  = (out, comments, pending ++ sentence).
Proof.
  induction sentence as [|t ts IH]; intros out comments pending Ht; cbn [foldl].
  - by rewrite app_nil_r.
  - apply Forall_cons in Ht as [[Hh Hb] Hts]. unfold view_step at 2.
    rewrite Hh, bool_decide_eq_false_2, IH by done. by rewrite <- app_assoc.
Qed.

(** A sentence the driver wrote is written again as it is. *)
Lemma feed_block out b :
  block_ok b →
  foldl view_step (out, [], []) (block_lines b)
  = (out +:+ file_of_lines (block_lines b), [], []).
Proof.
  destruct b as [comments sentence]. intros (Hc & Ht & Hne & Hv & _).
  cbn [fst snd] in *. unfold block_lines at 1. cbn [fst snd].
  rewrite !foldl_app, feed_comments, feed_tokens by done. cbn [foldl app].
  unfold view_step. cbn [Py.startswith]. rewrite bool_decide_eq_true_2 by done.
  destruct sentence as [|t ts]; [done|]. by rewrite emit_valid.
Qed.

Lemma feed_blocks blocks : ∀ out,
  Forall block_ok blocks →
  foldl view_step (out, [], []) (blocks ≫= block_lines)
  = (out +:+ file_of_lines (blocks ≫= block_lines), [], []).
Proof.
  induction blocks as [|b blocks IH]; intros out Hok.
  - cbn. by rewrite string_app_nil_r.
  - apply Forall_cons in Hok as [Hb Hbs].
    rewrite bind_cons, foldl_app, feed_block, IH by done.
    by rewrite file_of_lines_app, string_app_assoc.
Qed.

Lemma block_lines_clean blocks :
  Forall block_ok blocks → Forall clean_line (blocks ≫= block_lines).
Proof.
  induction 1 as [|[comments sentence] blocks (_ & _ & _ & _ & Hcl) _ IH]; [constructor|].
  rewrite bind_cons. apply Forall_app. split; [|done].
  unfold block_lines. cbn [fst snd] in *.
  rewrite app_assoc, Forall_app, Forall_singleton. split; [done|]. by split.
Qed.

(** A cleaned file is cleaned to itself. *)
Lemma cleaned_fixed out verbose : cleaned out → output_file out verbose = out.
Proof.
  intros (blocks & Hok & ->).
  rewrite output_file_view, stream_lines_file_of_lines by by apply block_lines_clean.
  by rewrite feed_blocks.
Qed.

(** C6.  Cleaning is idempotent: the output of [clean_conllu_file] is a
    sequence of sentences that pass validation, each written as its
    comments, its token lines and one blank line, and cleaning this output
    again gives the same text. *)
Theorem cleaning_idempotent input_file verbose verbose' :
  cleaned (output_file input_file verbose)
  ∧ output_file (output_file input_file verbose) verbose'
    = output_file input_file verbose.
Proof.
  split; [apply output_file_cleaned|]. apply cleaned_fixed, output_file_cleaned.
Qed.

(** * Further properties of the validator *)

Lemma bind_nil_inv {A B} (f : A → list B) (l : list A) :
  l ≫= f = [] → ∀ x, x ∈ l → f x = [].
Proof.
  induction l as [|y l IH]; intros Hnil x Hx; [by apply elem_of_nil in Hx|].
  rewrite bind_cons in Hnil. apply app_eq_nil in Hnil as [Hy Hl].
  apply elem_of_cons in Hx as [->|Hx]; [done|by apply IH].
Qed.

Lemma line_errors_nil_inv n line : line_errors (n, line) = [] → well_formed_line line.
Proof.
  unfold line_errors, parse_line, well_formed_line.
  destruct (Py.split Py.tab line)
    as [|a [|b [|c [|d [|e [|g [|h [|i [|j [|k [|]]]]]]]]]]];
    cbn [frame_error errors_append this errors empty_frame app]; try done.
  intros Hnil. exists a, b, c, d, e, g, h, i, j, k. split; [done|].
  destruct (Py.contains "-" a || Py.contains "." a); [by left|right].
  by destruct (Py.int a), (Py.int h).
Qed.

Lemma errors_nil_well_formed sentence_lines : ∀ n,
  Py.enumerate n sentence_lines ≫= line_errors = [] →
  Forall well_formed_line sentence_lines.
Proof.
  induction sentence_lines as [|line rest IH]; intros n Hnil; [constructor|].
  cbn [Py.enumerate] in Hnil. rewrite bind_cons in Hnil.
  apply app_eq_nil in Hnil as [Hl Hrest].
  constructor; [by eapply line_errors_nil_inv|by eapply IH].
Qed.

Lemma root_errors_nil_inv rts : root_errors rts = [] → length rts = 1%nat.
Proof. by destruct rts as [|? [|? ?]]. Qed.

Lemma head_errors_nil_inv toks :
  head_errors (list_to_set (map Token.id toks)) toks = [] →
  ∀ t, t ∈ toks → ¬ invalid_head toks t.
Proof.
  rewrite head_errors_bind. intros Hnil t Ht [Hnz Hno].
  pose proof (bind_nil_inv _ _ Hnil t Ht) as Hd. cbn beta in Hd.
  rewrite decide_True in Hd; [done|]. split; [done|].
  rewrite elem_of_ids. intros (t' & Ht' & Hid). by apply (Hno t').
Qed.

Lemma field_errors_nil_inv toks :
  field_errors toks = [] → ∀ t, t ∈ toks → populated t.
Proof.
  rewrite field_errors_bind. intros Hnil t Ht.
  pose proof (bind_nil_inv _ _ Hnil t Ht) as Hd. cbn beta in Hd.
  unfold check_fields_token in Hd. unfold populated.
  by destruct (missing (Token.form t)), (missing (Token.upos t)),
    (missing (Token.deprel t)).
Qed.

Lemma cycle_errors_nil_inv toks :
  cycle_errors toks = [] → ¬ map_cycle (token_heads_of toks).
Proof.
  unfold cycle_errors, check_cycles. intros Hnil Hc.
  apply _check_no_cycles_false in Hc. by rewrite Hc in Hnil.
Qed.

(** X1.  What a pass guarantees.  A sentence that [validate_sentence]
    accepts has at least one line, every line has ten fields and an integer
    id and head (or a span or empty-node id), exactly one structural token
    has head 0, every other head is the id of a structural token, the dict
    walked by the cycle check has no cycle (so the head chain has none when
    the ids are pairwise distinct), and no structural token lacks its form,
    upos or deprel. *)
Theorem pass_guarantees self sentence_lines sent_id :
  (validate_sentence self sentence_lines sent_id).1 = true →
  let toks := structural_tokens sentence_lines in
  sentence_lines ≠ []
  ∧ Forall well_formed_line sentence_lines
  ∧ length (root_tokens sentence_lines) = 1%nat
  ∧ (∀ t, t ∈ toks → ¬ invalid_head toks t)
  ∧ ¬ map_cycle (token_heads_of toks)
  ∧ (NoDup (map Token.id toks) → ¬ head_cycle toks)
  ∧ (∀ t, t ∈ toks → populated t).
Proof.
  intros Hpass. cbn zeta.
  apply validate_sentence_verdict in Hpass.
  destruct sentence_lines as [|line rest]; [done|].
  rewrite validate_sentence_errors in Hpass. cbn zeta in Hpass.
  apply app_eq_nil in Hpass as [Hlines Hpass].
  apply app_eq_nil in Hpass as [Hroots Hpass].
  apply app_eq_nil in Hpass as [Hheads Hpass].
  apply app_eq_nil in Hpass as [Hcycle Hfields].
  split; [done|]. split; [by eapply errors_nil_well_formed|].
  split.
  { apply root_errors_nil_inv in Hroots. by rewrite length_map in Hroots. }
  split; [by apply head_errors_nil_inv|].
  pose proof (cycle_errors_nil_inv _ Hcycle) as Hnc.
  split; [done|]. split; [|by apply field_errors_nil_inv].
  intros Hnd Hc. by apply Hnc, head_cycle_map_cycle.
Qed.

Lemma pass_guarantees_witness :
  (validate_sentence __init__ scenario_A None).1 = true
  ∧ length (root_tokens scenario_A) = 1%nat
  ∧ Forall well_formed_line scenario_A.
Proof.
  assert ((validate_sentence __init__ scenario_A None).1 = true) as Hpass
    by (vm_compute; reflexivity).
  destruct (pass_guarantees __init__ scenario_A None Hpass) as (_ & Hwf & Hroot & _).
  by repeat split.
Defined.

(** X2.  The diagnostics of a sentence of at least one line are those of
    the parsing loop, then the root-count message, then one invalid-head
    message for each token whose head is neither 0 nor an id, then the
    cycle message, then the messages for missing fields, token by token in
    the order form, UPOS, deprel: every check runs, whatever the checks
    before it found. *)
Theorem diagnostics_in_check_order self line rest sent_id :
  let sentence_lines := line :: rest in
  let toks := structural_tokens sentence_lines in
  let ids : gset Z := list_to_set (map Token.id toks) in
  get_errors ((validate_sentence self sentence_lines sent_id).2)
  = (Py.enumerate 1 sentence_lines ≫= line_errors)
    ++ match map Token.id (root_tokens sentence_lines) with
       | [] => [msg_no_root]
       | [_] => []
       | rts => [msg_multiple_roots rts]
       end
    ++ (toks ≫= (λ t, if decide (Token.head t ≠ 0 ∧ Token.head t ∉ ids)
                       then [msg_invalid_head (Token.id t) (Token.head t)] else []))
    ++ (if _check_no_cycles toks then [] else [msg_cycle])
    ++ (toks ≫= (λ t,
          (if missing (Token.form t) then [msg_missing (Token.id t) "form"] else [])
          ++ (if missing (Token.upos t) then [msg_missing (Token.id t) "UPOS"] else [])
          ++ (if missing (Token.deprel t)
              then [msg_missing (Token.id t) "deprel"] else []))).
Proof.
  cbn zeta. unfold get_errors. rewrite validate_sentence_errors. cbn zeta.
  rewrite head_errors_bind, field_errors_bind.
  f_equal. f_equal.
  { unfold root_errors, check_roots.
    by destruct (map Token.id (root_tokens (line :: rest))) as [|? [|? ?]]. }
  f_equal. f_equal.
  { unfold cycle_errors, check_cycles. by destruct (_check_no_cycles _). }
  apply list_bind_ext; [|done]. intros t. unfold check_fields_token.
  by destruct (missing (Token.form t)), (missing (Token.upos t)),
    (missing (Token.deprel t)).
Qed.

Lemma in_errors_line self line rest sent_id m :
  m ∈ Py.enumerate 1 (line :: rest) ≫= line_errors →
  m ∈ errors (validate_sentence self (line :: rest) sent_id).2.
Proof.
  intros Hm. rewrite validate_sentence_errors. cbn zeta.
  rewrite !elem_of_app. auto.
Qed.

Lemma in_errors_field self line rest sent_id m :
  m ∈ field_errors (structural_tokens (line :: rest)) →
  m ∈ errors (validate_sentence self (line :: rest) sent_id).2.
Proof.
  intros Hm. rewrite validate_sentence_errors. cbn zeta.
  rewrite !elem_of_app. auto 10.
Qed.

Lemma bad_integer_line n line a b c d e g h i j k :
  Py.split Py.tab line = [a; b; c; d; e; g; h; i; j; k] →
  (Py.contains "-" a || Py.contains "." a) = false →
  Py.int a = None ∨ Py.int h = None →
  line_tokens (n, line) = []
  ∧ line_errors (n, line) = [msg_invalid_int n a h].
Proof.
  intros Hs Hm Hbad. unfold line_tokens, line_errors, parse_line.
  rewrite Hs, Hm.
  destruct Hbad as [Ha|Hh]; [rewrite Ha|rewrite Hh; destruct (Py.int a)]; done.
Qed.

Lemma no_token_of_line sentence_lines (i : nat) line :
  sentence_lines !! i = Some line → line_tokens (1 + Z.of_nat i, line) = [] →
  ∀ t, t ∈ structural_tokens sentence_lines → Token.line_num t ≠ Z.of_nat i + 1.
Proof.
  intros Hi Hnil t Ht Hn. rewrite structural_tokens_bind in Ht.
  apply list_elem_of_bind in Ht as ([k l'] & Ht & Hitem).
  apply enumerate_elem in Hitem as (i' & Hi' & ->).
  pose proof (line_tokens_line_num _ _ _ Ht) as Hk.
  assert (i' = i) as -> by lia. rewrite Hi in Hi'. injection Hi' as <-.
  rewrite Hnil in Ht. by apply elem_of_nil in Ht.
Qed.

(** X3.  A line of ten fields whose id has neither hyphen nor period and
    whose id or head is not an integer records the "Invalid token ID or
    head" diagnostic with its line number and the two fields as written,
    contributes no token, and makes the sentence fail. *)
Theorem invalid_integer_reported
    self sentence_lines sent_id (i : nat) line a b c d e g h i' j k :
  sentence_lines !! i = Some line →
  Py.split Py.tab line = [a; b; c; d; e; g; h; i'; j; k] →
  (Py.contains "-" a || Py.contains "." a) = false →
  Py.int a = None ∨ Py.int h = None →
  let r := validate_sentence self sentence_lines sent_id in
  r.1 = false
  ∧ msg_invalid_int (Z.of_nat i + 1) a h ∈ get_errors (r.2)
  ∧ (∀ t, t ∈ structural_tokens sentence_lines →
          Token.line_num t ≠ Z.of_nat i + 1).
Proof.
  intros Hi Hs Hm Hbad. cbn zeta.
  destruct (bad_integer_line (1 + Z.of_nat i) line _ _ _ _ _ _ _ _ _ _ Hs Hm Hbad)
    as [Htok Herr].
  destruct sentence_lines as [|l0 ls0] eqn:Hls; [done|]. rewrite <- Hls in *.
  assert (msg_invalid_int (Z.of_nat i + 1) a h
          ∈ get_errors (validate_sentence self sentence_lines sent_id).2) as Hin.
  { unfold get_errors. rewrite Hls. apply in_errors_line. rewrite <- Hls.
    apply list_elem_of_bind. exists (1 + Z.of_nat i, line).
    split; [|by apply enumerate_lookup]. rewrite Herr, Z.add_comm. left. }
  split; [by eapply validate_sentence_fail|]. split; [done|].
  by eapply no_token_of_line.
Qed.

Lemma invalid_integer_reported_witness :
  (validate_sentence __init__
     [row ["x1"; "Dog"; "_"; "NOUN"; "_"; "_"; "0"; "root"; "_"; "_"]] None).1 = false
  ∧ "Line 1: Invalid token ID or head: x1, 0"
    ∈ get_errors ((validate_sentence __init__
         [row ["x1"; "Dog"; "_"; "NOUN"; "_"; "_"; "0"; "root"; "_"; "_"]] None).2).
Proof.
  pose proof (invalid_integer_reported __init__
    [row ["x1"; "Dog"; "_"; "NOUN"; "_"; "_"; "0"; "root"; "_"; "_"]] None 0%nat
    _ "x1" "Dog" "_" "NOUN" "_" "_" "0" "root" "_" "_" eq_refl eq_refl eq_refl
    (or_introl eq_refl)) as (H1 & H2 & _).
  by split.
Defined.

(** X4.  A structural token whose form, upos or deprel is empty or the
    underscore makes the sentence fail, and the diagnostics contain, for
    each such field, the message that names the token and the field. *)
Theorem missing_field_reported self sentence_lines sent_id t :
  t ∈ structural_tokens sentence_lines →
  ¬ populated t →
  let r := validate_sentence self sentence_lines sent_id in
  r.1 = false
  ∧ (missing (Token.form t) = true →
     msg_missing (Token.id t) "form" ∈ get_errors (r.2))
  ∧ (missing (Token.upos t) = true →
     msg_missing (Token.id t) "UPOS" ∈ get_errors (r.2))
  ∧ (missing (Token.deprel t) = true →
     msg_missing (Token.id t) "deprel" ∈ get_errors (r.2)).
Proof.
  intros Ht Hnp. cbn zeta.
  destruct sentence_lines as [|line rest]; [by apply elem_of_nil in Ht|].
  assert (∀ m, m ∈ errors (check_fields_token {| errors := [] |} t) →
               m ∈ get_errors (validate_sentence self (line :: rest) sent_id).2) as Hin.
  { intros m Hm. apply in_errors_field. rewrite field_errors_bind.
    apply list_elem_of_bind. by exists t. }
  unfold check_fields_token in Hin. unfold populated in Hnp.
  destruct (missing (Token.form t)) eqn:Hf, (missing (Token.upos t)) eqn:Hu,
    (missing (Token.deprel t)) eqn:Hd; cbn in Hin; try (by destruct Hnp);
    (split; [eapply validate_sentence_fail, Hin; left|]);
    repeat split; intros; try done; apply Hin;
    rewrite ?elem_of_cons; auto.
Qed.

Lemma missing_field_reported_witness :
  "Token 1: Empty or missing UPOS"
  ∈ get_errors ((validate_sentence __init__
       [row ["1"; "Dog"; "_"; "_"; "_"; "_"; "0"; "root"; "_"; "_"]] None).2).
Proof.
  assert (Token.mk 1 "Dog" "_" "_" 0 "root" 1
          ∈ structural_tokens
              [row ["1"; "Dog"; "_"; "_"; "_"; "_"; "0"; "root"; "_"; "_"]]) as Hin.
  { assert (structural_tokens
              [row ["1"; "Dog"; "_"; "_"; "_"; "_"; "0"; "root"; "_"; "_"]]
            = [Token.mk 1 "Dog" "_" "_" 0 "root" 1]) as ->
      by (vm_compute; reflexivity).
    left. }
  assert (¬ populated (Token.mk 1 "Dog" "_" "_" 0 "root" 1)) as Hnp.
  { intros (_ & Hu & _). vm_compute in Hu. discriminate Hu. }
  destruct (missing_field_reported __init__ _ None _ Hin Hnp) as (_ & _ & Hu & _).
  apply Hu. reflexivity.
Defined.

(** X5.  The cycle diagnostic is never a false alarm: when it is among the
    diagnostics, the head chain of the structural tokens has a cycle that
    does not pass through 0. *)
Theorem cycle_reported_only_on_cycle self sentence_lines sent_id :
  msg_cycle ∈ get_errors ((validate_sentence self sentence_lines sent_id).2) →
  map_cycle (token_heads_of (structural_tokens sentence_lines))
  ∧ head_cycle (structural_tokens sentence_lines).
Proof.
  intros Hin. destruct sentence_lines as [|line rest].
  { apply list_elem_of_singleton in Hin. discriminate Hin. }
  assert (msg_cycle ∈ filter (λ m, m = msg_cycle)
            (errors (validate_sentence self (line :: rest) sent_id).2)) as Hf
    by by apply list_elem_of_filter.
  rewrite cycle_diagnostic_count in Hf. unfold cycle_errors, check_cycles in Hf.
  destruct (_check_no_cycles _) eqn:Hc; [by apply elem_of_nil in Hf|].
  apply _check_no_cycles_false in Hc. split; [done|by apply map_cycle_head_cycle].
Qed.

Lemma cycle_reported_only_on_cycle_witness :
  head_cycle (structural_tokens scenario_D).
Proof.
  refine (proj2 (cycle_reported_only_on_cycle __init__ scenario_D None _)).
  vm_compute. right. left.
Defined.

Lemma digit_value_nonneg a d : Py.digit_value a = Some d → 0 ≤ d.
Proof.
  unfold Py.digit_value.
  destruct ((48 <=? N_of_ascii a)%N && (N_of_ascii a <=? 57)%N) eqn:Hd; [|done].
  intros [= <-]. apply andb_prop in Hd as [Hlo _]. apply N.leb_le in Hlo. lia.
Qed.

Lemma scan_digits_nonneg s : ∀ acc digits prev_us v n rest,
  Py.scan_digits acc digits prev_us s = Some (v, n, rest) → 0 ≤ acc → 0 ≤ v.
Proof.
  induction s as [|a r IH]; intros acc digits prev_us v n rest; cbn [Py.scan_digits].
  - destruct prev_us; [done|]. by intros [= <- _ _].
  - destruct (Py.digit_value a) as [d|] eqn:Hd.
    + intros Hs Hacc. eapply IH; [done|].
      apply digit_value_nonneg in Hd. lia.
    + case_decide.
      * destruct prev_us; [done|]. apply IH.
      * destruct prev_us; [done|]. by intros [= <- _ _].
Qed.

Lemma int_unsigned_nonneg s z : Py.int_unsigned s = Some z → 0 ≤ z.
Proof.
  unfold Py.int_unsigned. intros Hz.
  assert (match Py.scan_digits 0 0 false s with
          | Some (v, _, _) => 0 ≤ v
          | None => True
          end) as Hscan.
  { destruct (Py.scan_digits 0 0 false s) as [[[v n] rest]|] eqn:Hs; [|done].
    by eapply scan_digits_nonneg. }
  destruct s as [|a r]; [by cbn in Hz|].
  destruct (Py.scan_digits 0 0 false (String a r)) as [[[v n] rest]|];
    [|by destruct a as [[] [] [] [] [] [] [] []]].
  assert ((if (n =? 0)%N then None
           else if (Py.max_str_digits <? n)%N then None
           else match Py.skip_int_space rest with
                | EmptyString => Some v
                | String _ _ => None
                end) = Some z → 0 ≤ z) as Hgo.
  { destruct (n =? 0)%N; [done|]. destruct (Py.max_str_digits <? n)%N; [done|].
    destruct (Py.skip_int_space rest); [|done]. by intros [= <-]. }
  destruct a as [[] [] [] [] [] [] [] []]; by (apply Hgo || discriminate Hz).
Qed.

Lemma contains_skip_int_space c s :
  Py.contains c (Py.skip_int_space s) = true → Py.contains c s = true.
Proof.
  induction s as [|a r IH]; [done|]. cbn [Py.skip_int_space Py.contains].
  destruct (Py.int_space a); [|done]. intros Hc. rewrite IH by done. by case_decide.
Qed.

(** Without a hyphen, [int] gives no negative number. *)
Lemma int_nonneg s z : Py.contains "-" s = false → Py.int s = Some z → 0 ≤ z.
Proof.
  intros Hno Hz. unfold Py.int in Hz.
  destruct (Py.skip_int_space s) as [|a r] eqn:Hskip;
    [by apply int_unsigned_nonneg in Hz|].
  destruct (decide (a = "-"%char)) as [->|Hne].
  { exfalso. pose proof (contains_skip_int_space "-" s) as Hc.
    rewrite Hskip, Hno in Hc. by specialize (Hc eq_refl). }
  destruct a as [[] [] [] [] [] [] [] []];
    try (by apply int_unsigned_nonneg in Hz); done.
Qed.

Lemma line_tokens_fields n line t :
  t ∈ line_tokens (n, line) →
  ∃ a xpos feats h deps misc,
    Py.split Py.tab line
    = [a; Token.form t; Token.lemma t; Token.upos t; xpos; feats; h;
       Token.deprel t; deps; misc]
    ∧ (Py.contains "-" a || Py.contains "." a) = false
    ∧ Py.int a = Some (Token.id t) ∧ Py.int h = Some (Token.head t)
    ∧ Token.line_num t = n
    ∧ line_tokens (n, line) = [t].
Proof.
  unfold line_tokens, parse_line.
  destruct (Py.split Py.tab line)
    as [|a [|b [|c [|d [|e [|g [|h [|i [|j [|k [|]]]]]]]]]]];
    cbn [frame_error tokens empty_frame]; try by intros ?%elem_of_nil.
  destruct (Py.contains "-" a || Py.contains "." a) eqn:Hm;
    [by intros ?%elem_of_nil|].
  destruct (Py.int a) as [ia|] eqn:Ha, (Py.int h) as [ih|] eqn:Hh; cbn;
    try by intros ?%elem_of_nil.
  intros ->%list_elem_of_singleton. by exists a, e, g, h, j, k.
Qed.

(** X6.  Every structural token is the record of one line of the sentence:
    that line has ten fields, its form, lemma, upos and deprel are the
    second, third, fourth and eighth, its id and head are the integers of
    the first and the seventh, and its line number is the 1-based position
    of the line.  Its id is never negative, since an id with a hyphen is
    skipped. *)
Theorem token_of_line sentence_lines t :
  t ∈ structural_tokens sentence_lines →
  0 ≤ Token.id t
  ∧ ∃ (i : nat) line a xpos feats h deps misc,
      sentence_lines !! i = Some line
      ∧ Token.line_num t = Z.of_nat i + 1
      ∧ Py.split Py.tab line
        = [a; Token.form t; Token.lemma t; Token.upos t; xpos; feats; h;
           Token.deprel t; deps; misc]
      ∧ Py.int a = Some (Token.id t) ∧ Py.int h = Some (Token.head t).
Proof.
  rewrite structural_tokens_bind.
  intros ([n line] & Ht & Hitem)%list_elem_of_bind.
  apply enumerate_elem in Hitem as (i & Hi & ->).
  apply line_tokens_fields in Ht
    as (a & xpos & feats & h & deps & misc & Hs & Hm & Ha & Hh & Hn & _).
  split.
  - apply orb_false_elim in Hm as [Hm _]. by eapply int_nonneg.
  - exists i, line, a, xpos, feats, h, deps, misc. repeat split; try done. lia.
Qed.

Lemma token_of_line_witness :
  0 ≤ Token.id (Token.mk 2 "barks" "_" "VERB" 0 "root" 2).
Proof.
  refine (proj1 (token_of_line scenario_A _ _)).
  assert (structural_tokens scenario_A
          = [Token.mk 1 "Dog" "_" "NOUN" 2 "nsubj" 1;
             Token.mk 2 "barks" "_" "VERB" 0 "root" 2]) as ->
    by (vm_compute; reflexivity).
  right. left.
Defined.

Lemma while_loop_mono heads : ∀ fuel fuel' visited current b,
  while_loop fuel heads visited current = Some b → (fuel ≤ fuel')%nat →
  while_loop fuel' heads visited current = Some b.
Proof.
  induction fuel as [|fuel IH]; intros fuel' visited current b; [done|].
  destruct fuel' as [|fuel']; [lia|]. cbn [while_loop].
  case_decide; [done|]. destruct (heads !! current); [|done].
  case_decide; [done|]. intros Hw Hle. apply IH; [done|lia].
Qed.

Lemma for_start_mono heads fuel fuel' starts b :
  for_start fuel heads starts = Some b → (fuel ≤ fuel')%nat →
  for_start fuel' heads starts = Some b.
Proof.
  intros Hf Hle. induction starts as [|t starts IH]; cbn [for_start] in *; [done|].
  destruct (while_loop fuel heads ∅ (Token.id t)) as [w|] eqn:Hw; [|done].
  rewrite (while_loop_mono _ _ _ _ _ _ Hw Hle). destruct w; [by apply IH|done].
Qed.

(** X7.  The walks of [_check_no_cycles] terminate: from every start token
    the [while] loop ends within one more iteration than the dict has keys,
    and with any such bound the loop over the start tokens gives the answer
    of [_check_no_cycles]. *)
Theorem cycle_walk_terminates toks fuel :
  (size (token_heads_of toks) < fuel)%nat →
  (∀ start, is_Some (while_loop fuel (token_heads_of toks) ∅ start))
  ∧ for_start fuel (token_heads_of toks) toks = Some (_check_no_cycles toks).
Proof.
  intros Hfuel. split.
  - intros start. apply while_loop_terminates; [set_solver|].
    rewrite size_dom, size_empty. lia.
  - unfold _check_no_cycles. cbn zeta.
    destruct (for_start_terminates (token_heads_of toks) toks) as [b Hb].
    rewrite Hb. eapply for_start_mono; [done|lia].
Qed.

Lemma cycle_walk_terminates_witness :
  for_start 3 (token_heads_of (structural_tokens scenario_D))
    (structural_tokens scenario_D)
  = Some (_check_no_cycles (structural_tokens scenario_D)).
Proof.
  refine (proj2 (cycle_walk_terminates (structural_tokens scenario_D) 3 _)).
  vm_compute. lia.
Defined.

Lemma line_contribution item :
  (length (line_tokens item) + length (line_errors item) ≤ 1)%nat.
Proof.
  unfold line_tokens, line_errors, parse_line. destruct item as [n line].
  destruct (Py.split Py.tab line)
    as [|a [|b [|c [|d [|e [|g [|h [|i [|j [|k [|]]]]]]]]]]]; cbn; try lia.
  destruct (_ || _); cbn; [lia|].
  destruct (Py.int a), (Py.int h); cbn; lia.
Qed.

(** X8.  What the parsing loop keeps.  After the loop, [roots] lists the
    ids of the tokens with head 0 in the order of the lines, [token_ids] is
    the set of the ids of the tokens, and every line has given at most one
    token or one diagnostic, never both. *)
Theorem parsing_loop_state self0 sentence_lines :
  let f := parse_lines self0 sentence_lines in
  roots f = map Token.id (filter is_root (tokens f))
  ∧ token_ids f = list_to_set (map Token.id (tokens f))
  ∧ (∀ x, x ∈ token_ids f ↔ ∃ t, t ∈ tokens f ∧ Token.id t = x)
  ∧ (length (tokens f) + length (errors (this f))
     ≤ length (errors self0) + length sentence_lines)%nat.
Proof.
  cbn zeta.
  rewrite parse_lines_roots, parse_lines_ids, parse_lines_tokens.
  split; [done|]. split; [done|]. split; [apply elem_of_ids|].
  rewrite structural_tokens_bind. unfold parse_lines.
  rewrite parse_items_frame. cbn [this errors]. rewrite length_app.
  enough (∀ n, (length (Py.enumerate n sentence_lines ≫= line_tokens)
                + length (Py.enumerate n sentence_lines ≫= line_errors)
                ≤ length sentence_lines)%nat) as H by (specialize (H 1); lia).
  induction sentence_lines as [|line rest IH]; intros n; [done|].
  cbn [Py.enumerate length]. rewrite !bind_cons, !length_app.
  pose proof (line_contribution (n, line)). specialize (IH (n + 1)). lia.
Qed.

(** * Further properties of the driver *)

Lemma silent_handle_sentence verbose where_ d :
  silent (handle_sentence verbose where_ d)
  = silent (handle_sentence false "" (silent d)).
Proof.
  unfold handle_sentence. cbn [silent validator current_sentence sent_id].
  by destruct (validate_sentence _ _ _) as [[|] v]; destruct verbose.
Qed.

Lemma silent_reset_buffers d : silent (reset_buffers d) = reset_buffers (silent d).
Proof. done. Qed.

Lemma silent_silent d : silent (silent d) = silent d.
Proof. done. Qed.

Lemma silent_read_line verbose d item :
  silent (read_line verbose d item) = silent (read_line false (silent d) item).
Proof.
  unfold read_line. destruct item as [n raw].
  destruct (Py.startswith "#" (Py.rstrip_nl raw)); [done|].
  case_bool_decide; [|done]. cbn [silent current_sentence].
  destruct (current_sentence d); [done|].
  rewrite !silent_reset_buffers, silent_handle_sentence.
  by rewrite (silent_handle_sentence false _ (silent d)), silent_silent.
Qed.

Lemma silent_feed items : ∀ verbose d,
  silent (foldl (read_line verbose) d items)
  = silent (foldl (read_line false) (silent d) items).
Proof.
  induction items as [|item items IH]; intros verbose d; [done|].
  cbn [foldl]. rewrite IH, silent_read_line.
  by rewrite (IH false (read_line false (silent d) item)).
Qed.

Lemma silent_end_of_stream verbose d :
  silent (end_of_stream verbose d) = silent (end_of_stream false (silent d)).
Proof.
  unfold end_of_stream. cbn [silent current_sentence].
  destruct (current_sentence d); [done|]. apply silent_handle_sentence.
Qed.

Lemma silent_process_stream input_file verbose :
  silent (process_stream input_file verbose)
  = silent (process_stream input_file false).
Proof.
  unfold process_stream. rewrite silent_end_of_stream, silent_feed.
  symmetry. by rewrite silent_end_of_stream, silent_feed.
Qed.

Lemma summary_silent d :
  silent (summary d).1 = silent d ∧ (summary d).2 = (summary (silent d)).2.
Proof.
  unfold summary. cbn -[success_rate].
  by destruct (success_rate _ _).
Qed.

(** X9.  The verbose flag changes only what is printed: the output file,
    the three counters, the diagnostics left in the validator and the
    exception raised, if any, are the same with and without it. *)
Theorem verbose_only_prints input_file :
  let quiet := clean_conllu_file input_file false in
  let loud := clean_conllu_file input_file true in
  outfile (loud.1) = outfile (quiet.1)
  ∧ tally (loud.1) = tally (quiet.1)
  ∧ validator (loud.1) = validator (quiet.1)
  ∧ loud.2 = quiet.2.
Proof.
  cbn zeta. unfold clean_conllu_file.
  pose proof (silent_process_stream input_file true) as Hs.
  destruct (summary_silent (process_stream input_file true)) as [H1 H2].
  destruct (summary_silent (process_stream input_file false)) as [H3 H4].
  rewrite H2, H4, Hs. rewrite Hs in H1. rewrite <- H3 in H1.
  unfold tally.
  set (a := (summary (process_stream input_file true)).1) in *.
  set (b := (summary (process_stream input_file false)).1) in *.
  assert (∀ (T : Type) (f : Driver → T), (∀ d, f (silent d) = f d) → f a = f b)
    as HT.
  { intros T f Hf. by rewrite <- (Hf a), <- (Hf b), H1. }
  split; [|split; [|split; [|done]]].
  - by apply (HT _ outfile).
  - by rewrite (HT _ total_sentences), (HT _ valid_sentences),
      (HT _ invalid_sentences).
  - by apply (HT _ validator).
Qed.

Lemma removed_log_handle verbose where_ d :
  removed_log verbose d → removed_log verbose (handle_sentence verbose where_ d).
Proof.
  intros [Hall Hlen]. unfold removed_log, handle_sentence.
  destruct (validate_sentence _ _ _) as [[|] v]; cbn [stdout invalid_sentences];
    [done|].
  destruct verbose; [|done]. split.
  - apply Forall_app. split; [done|]. by apply Forall_singleton.
  - rewrite length_app. cbn [length]. lia.
Qed.

Lemma removed_log_read_line verbose d item :
  removed_log verbose d → removed_log verbose (read_line verbose d item).
Proof.
  intros Hd. unfold read_line. destruct item as [n raw].
  destruct (Py.startswith "#" (Py.rstrip_nl raw)); [done|].
  case_bool_decide; [|done]. destruct (current_sentence d); [done|].
  by apply (removed_log_handle verbose (" (line ~" +:+ Py.str n +:+ ")")) in Hd.
Qed.

Lemma removed_log_feed verbose items : ∀ d,
  removed_log verbose d → removed_log verbose (foldl (read_line verbose) d items).
Proof.
  induction items as [|item items IH]; intros d Hd; [done|].
  cbn [foldl]. by apply IH, removed_log_read_line.
Qed.

Lemma removed_log_process_stream input_file verbose :
  removed_log verbose (process_stream input_file verbose).
Proof.
  unfold process_stream, end_of_stream.
  set (d := foldl _ _ _).
  assert (removed_log verbose d) as Hd.
  { apply removed_log_feed. split; [constructor|]. by destruct verbose. }
  destruct (current_sentence d); [done|]. by apply removed_log_handle.
Qed.

(** X10.  What [clean_conllu_file] prints: first one line "Removed sentence
    ..." for each invalid sentence when verbose, and nothing when not; then
    the four summary lines with the three counters; then the success rate,
    unless computing it raised an exception. *)
Theorem printed_lines input_file verbose :
  let r := clean_conllu_file input_file verbose in
  ∃ removed,
    stdout (r.1)
    = removed ++ summary_head (r.1)
      ++ match success_rate (valid_sentences (r.1)) (total_sentences (r.1)) with
         | inr rate => [rate]
         | inl _ => []
         end
    ∧ Forall (λ m, Py.startswith "Removed sentence " m = true) removed
    ∧ Z.of_nat (length removed) = (if verbose then invalid_sentences (r.1) else 0)
    ∧ (verbose = false → removed = []).
Proof.
  cbn zeta. unfold clean_conllu_file.
  destruct (removed_log_process_stream input_file verbose) as [Hall Hlen].
  set (d := process_stream input_file verbose) in *.
  exists (stdout d).
  destruct (summary_state d) as (Ht & Hv & Hi & _).
  unfold summary_head. rewrite Ht, Hv, Hi.
  split; [|split; [done|split; [done|]]].
  - unfold summary. cbn -[success_rate].
    destruct (success_rate _ _); cbn [fst print stdout];
      by rewrite <- ?app_assoc.
  - intros ->. by destruct (stdout d).
Qed.

Lemma tally_handle_sentence verbose where_ d :
  tally (handle_sentence verbose where_ d)
  = count_sentence (current_sentence d) (tally d).
Proof.
  unfold handle_sentence, count_sentence, tally.
  change (validate_sentence (validator d) (current_sentence d) (sent_id d))
    with (validate_sentence __init__ (current_sentence d) None).
  by destruct (validate_sentence __init__ (current_sentence d) None) as [[|] v].
Qed.

Lemma full_read_line verbose d n raw :
  (view (read_line verbose d (n, raw)), tally (read_line verbose d (n, raw)))
  = full_step (view d, tally d) (Py.rstrip_nl raw).
Proof.
  unfold full_step. cbn [fst snd]. rewrite view_read_line. f_equal.
  unfold read_line.
  destruct (Py.startswith "#" (Py.rstrip_nl raw)); [done|].
  case_bool_decide; [|done]. unfold view. cbn [snd].
  destruct (current_sentence d) eqn:Hs; [done|].
  change (tally (reset_buffers ?x)) with (tally x).
  by rewrite tally_handle_sentence, Hs.
Qed.

Lemma full_feed verbose raws : ∀ n d,
  let d' := foldl (read_line verbose) d (Py.enumerate n raws) in
  (view d', tally d') = foldl full_step (view d, tally d) (map Py.rstrip_nl raws).
Proof.
  induction raws as [|raw raws IH]; intros n d; cbn zeta; [done|].
  cbn [Py.enumerate foldl map].
  specialize (IH (n + 1) (read_line verbose d (n, raw))). cbn zeta in IH.
  by rewrite IH, full_read_line.
Qed.

Lemma full_end_of_stream verbose d :
  (outfile (end_of_stream verbose d), tally (end_of_stream verbose d))
  = full_end (view d, tally d).
Proof.
  unfold full_end. cbn [fst snd]. rewrite view_end_of_stream. f_equal.
  unfold end_of_stream, view. cbn [snd].
  destruct (current_sentence d) eqn:Hs; [done|].
  by rewrite tally_handle_sentence, Hs.
Qed.

(** The output file and the counters, from the lines of the input. *)
Lemma clean_full input_file verbose :
  let r := clean_conllu_file input_file verbose in
  (outfile (r.1), tally (r.1))
  = full_end (foldl full_step (("", [], []), (0, 0, 0)) (stream_lines input_file)).
Proof.
  cbn zeta. unfold clean_conllu_file.
  destruct (summary_state (process_stream input_file verbose)) as (Ht & Hv & Hi & Ho).
  unfold tally. rewrite Ht, Hv, Hi, Ho.
  fold (tally (process_stream input_file verbose)).
  unfold process_stream. rewrite full_end_of_stream.
  pose proof (full_feed verbose (readlines (universal_newlines input_file))
                1 initial_driver) as Hf.
  cbn zeta in Hf. by rewrite Hf.
Qed.

(** ** The driver: the sentences counted *)

Lemma blank_separated_not_nil lines : blank_separated lines ≠ [].
Proof.
  destruct lines as [|l rest]; [done|]. cbn [blank_separated].
  destruct (decide (is_blank l)); [done|].
  by destruct (blank_separated rest).
Qed.

Lemma blank_separated_blank l rest :
  is_blank l → blank_separated (l :: rest) = [] :: blank_separated rest.
Proof. intros Hl. cbn [blank_separated]. by rewrite decide_True. Qed.

(** Lines that are not blank go to the first piece. *)
Lemma blank_separated_run run : ∀ rest,
  Forall (λ l, ¬ is_blank l) run →
  blank_separated (run ++ rest)
  = (run ++ hd [] (blank_separated rest)) :: tl (blank_separated rest).
Proof.
  induction run as [|l run IH]; intros rest Hrun.
  - pose proof (blank_separated_not_nil rest). cbn [app].
    by destruct (blank_separated rest).
  - apply Forall_cons in Hrun as [Hl Hrun].
    cbn [app blank_separated]. rewrite decide_False by done.
    by rewrite IH.
Qed.

(** A blank line cuts: the pieces before it, then the pieces after it. *)
Lemma blank_separated_cut before l after :
  is_blank l →
  blank_separated (before ++ l :: after)
  = blank_separated before ++ blank_separated after.
Proof.
  intros Hl. induction before as [|x before IH].
  - change ([] ++ l :: after) with (l :: after).
    by rewrite blank_separated_blank.
  - cbn [app blank_separated]. rewrite IH.
    destruct (decide (is_blank x)); [done|].
    pose proof (blank_separated_not_nil before).
    by destruct (blank_separated before).
Qed.

Lemma token_line_class l :
  is_token_line l ↔ ¬ is_comment l ∧ ¬ is_blank l.
Proof.
  unfold is_token_line, is_comment, is_blank.
  destruct (Py.startswith "#" l); intuition congruence.
Qed.

(** The counters after the loop and the end of the stream, started with
    token lines pending: one sentence counted for each block. *)
Lemma feed_blocks_counted lines : ∀ out comments sentence c,
  Forall is_token_line sentence →
  (full_end (foldl full_step ((out, comments, sentence), c) lines)).2
  = foldl (λ c b, count_sentence b c) c
      (filter (λ b, b ≠ [])
         (blank_separated (sentence ++ filter (λ l, ¬ is_comment l) lines))).
Proof.
  induction lines as [|l lines IH]; intros out comments sentence c Hs.
  - assert (Forall (λ l, ¬ is_blank l) sentence) as Hnb.
    { eapply Forall_impl; [exact Hs|]. intros l Hl. by apply token_line_class in Hl as [_ ?]. }
    rewrite filter_nil, blank_separated_run by done.
    cbn [blank_separated hd tl foldl full_end fst snd]. rewrite app_nil_r.
    destruct sentence as [|t sentence]; [done|].
    by rewrite filter_cons_True, filter_nil by done.
  - assert (Forall (λ l, ¬ is_blank l) sentence) as Hnb.
    { eapply Forall_impl; [exact Hs|]. intros x Hx. by apply token_line_class in Hx as [_ ?]. }
    cbn [foldl]. unfold full_step at 2. cbn [fst snd view_step].
    destruct (Py.startswith "#" l) eqn:Hc.
    + rewrite filter_cons_False by (intros H; by apply H).
      by apply IH.
    + rewrite filter_cons_True by (unfold is_comment; congruence).
      case_bool_decide as Hb.
      * assert (is_blank l) as Hl by done.
        rewrite blank_separated_run, blank_separated_blank by done.
        cbn [hd tl]. rewrite app_nil_r.
        destruct sentence as [|t sentence].
        -- rewrite filter_cons_False by (intros H; by apply H).
           by rewrite (IH out comments [] c) by done.
        -- rewrite filter_cons_True by done. cbn [foldl].
           by rewrite (IH _ [] [] _) by done.
      * rewrite (IH out comments (sentence ++ [l]) c).
        -- by rewrite <- app_assoc.
        -- apply Forall_app. split; [done|]. by apply Forall_singleton.
Qed.

Lemma count_sentences blocks : ∀ total valid invalid,
  foldl (λ c b, count_sentence b c) (total, valid, invalid) blocks
  = (total + Z.of_nat (length blocks),
     valid + Z.of_nat (length (filter sentence_valid blocks)),
     invalid + Z.of_nat (length (filter (λ b, ¬ sentence_valid b) blocks))).
Proof.
  induction blocks as [|b blocks IH]; intros total valid invalid.
  - cbn. f_equal; [f_equal|]; lia.
  - cbn [foldl]. unfold count_sentence at 2.
    destruct (decide (sentence_valid b)) as [Hb|Hb].
    + rewrite Hb, IH, filter_cons_True, filter_cons_False by (done || tauto).
      cbn [length]. f_equal; [f_equal|..]; lia.
    + apply not_true_is_false in Hb as Hb'. rewrite Hb', IH.
      rewrite filter_cons_False, filter_cons_True by done.
      cbn [length]. f_equal; [f_equal|..]; lia.
Qed.

(** The counters of [clean_conllu_file], from the blocks of the input. *)
Lemma tally_blocks input_file verbose :
  let blocks := sentence_blocks (stream_lines input_file) in
  tally (clean_conllu_file input_file verbose).1
  = (Z.of_nat (length blocks),
     Z.of_nat (length (filter sentence_valid blocks)),
     Z.of_nat (length (filter (λ b, ¬ sentence_valid b) blocks))).
Proof.
  cbn zeta.
  pose proof (f_equal snd (clean_full input_file verbose)) as H.
  cbn zeta in H. cbn [snd] in H. rewrite H.
  by rewrite feed_blocks_counted, count_sentences by done.
Qed.

(** A run of lines after a blank line, or at the start, is one more block. *)
Lemma sentence_blocks_final lines g :
  (lines = [] ∨ ∃ init b, lines = init ++ [b] ∧ is_blank b) →
  Forall (λ l, ¬ is_blank l) g →
  filter is_token_line g ≠ [] →
  sentence_blocks (lines ++ g) = sentence_blocks lines ++ [filter is_token_line g].
Proof.
  intros Hlines Hg Hne.
  assert (filter (λ l, ¬ is_comment l) g = filter is_token_line g) as HF.
  { clear Hne. induction Hg as [|l g Hl _ IH]; [done|].
    destruct (decide (is_comment l)) as [Hc|Hc].
    - rewrite !filter_cons_False; [done|..].
      + intros Ht. by apply token_line_class in Ht as [? _].
      + tauto.
    - rewrite !filter_cons_True; [by rewrite IH|..]; [|done].
      by apply token_line_class. }
  assert (Forall (λ l, ¬ is_blank l) (filter is_token_line g)) as Hnb.
  { apply Forall_forall. intros l Hl. apply list_elem_of_filter in Hl as [Hl _].
    by apply token_line_class in Hl as [_ ?]. }
  assert (blank_separated (filter is_token_line g) = [filter is_token_line g]) as Hrun.
  { rewrite <- (app_nil_r (filter is_token_line g)) at 1.
    rewrite blank_separated_run by done. cbn. by rewrite app_nil_r. }
  assert (filter (λ b : list string, b ≠ []) [[]] = []) as Hemp.
  { by rewrite filter_cons_False, filter_nil by (intros H; by apply H). }
  assert (filter (λ b : list string, b ≠ []) [filter is_token_line g]
          = [filter is_token_line g]) as Hone.
  { by rewrite filter_cons_True, filter_nil by done. }
  destruct Hlines as [->|(init & b & -> & Hb)].
  - change ([] ++ g) with g. unfold sentence_blocks.
    rewrite HF, Hrun, Hone, filter_nil. cbn [blank_separated].
    by rewrite Hemp.
  - assert (¬ is_comment b) as Hc.
    { destruct Hb as [Hb _]. unfold is_comment. congruence. }
    unfold sentence_blocks.
    rewrite !filter_app, HF, (filter_cons_True _ b), filter_nil by done.
    rewrite <- app_assoc. change ([b] ++ filter is_token_line g)
      with (b :: filter is_token_line g).
    rewrite !blank_separated_cut by done.
    rewrite Hrun. cbn [blank_separated].
    by rewrite !filter_app, Hemp, Hone, app_nil_r.
Qed.

(** C7.  After [clean_conllu_file] the counters satisfy
    [total == valid + invalid], for every input: [total] is the number of
    sentence blocks of the input, [valid] the number of those the validator
    accepts and [invalid] the number of the others, so each block adds one
    to [total] and one to exactly one of [valid] and [invalid].  A last
    sentence that no blank line follows is counted in the same way: a file
    that goes on, after a blank line or from its start, with lines that are
    not blank and hold a token line has one more in [total] and one more in
    [valid] if the validator accepts these token lines, in [invalid] if
    not. *)
Theorem counters_consistent :
  (∀ input_file verbose,
     let d := (clean_conllu_file input_file verbose).1 in
     let blocks := sentence_blocks (stream_lines input_file) in
     total_sentences d = valid_sentences d + invalid_sentences d
     ∧ total_sentences d = Z.of_nat (length blocks)
     ∧ valid_sentences d = Z.of_nat (length (filter sentence_valid blocks))
     ∧ invalid_sentences d
       = Z.of_nat (length (filter (λ b, ¬ sentence_valid b) blocks)))
  ∧ (∀ lines g verbose,
       Forall clean_line (lines ++ g) →
       (lines = [] ∨ ∃ init b, lines = init ++ [b] ∧ is_blank b) →
       Forall (λ l, ¬ is_blank l) g →
       filter is_token_line g ≠ [] →
       let before := (clean_conllu_file (file_of_lines lines) verbose).1 in
       let after := (clean_conllu_file (file_of_lines (lines ++ g)) verbose).1 in
       total_sentences after = total_sentences before + 1
       ∧ (sentence_valid (filter is_token_line g)
            ∧ valid_sentences after = valid_sentences before + 1
            ∧ invalid_sentences after = invalid_sentences before
          ∨ ¬ sentence_valid (filter is_token_line g)
            ∧ valid_sentences after = valid_sentences before
            ∧ invalid_sentences after = invalid_sentences before + 1)).
Proof.
  split.
  - intros input_file verbose. cbn zeta.
    pose proof (tally_blocks input_file verbose) as H. cbn zeta in H.
    unfold tally in H. injection H as Ht Hv Hi.
    split; [|done].
    apply counters_sum.
  - intros lines g verbose Hclean Hlines Hg Hne. cbn zeta.
    pose proof (tally_blocks (file_of_lines lines) verbose) as H1.
    pose proof (tally_blocks (file_of_lines (lines ++ g)) verbose) as H2.
    cbn zeta in H1, H2.
    rewrite stream_lines_file_of_lines in H1
      by (by apply Forall_app in Hclean as [? _]).
    rewrite stream_lines_file_of_lines, sentence_blocks_final in H2 by done.
    rewrite !filter_app, !length_app in H2.
    unfold tally in H1, H2.
    injection H1 as Ht1 Hv1 Hi1. injection H2 as Ht2 Hv2 Hi2.
    rewrite Ht1, Hv1, Hi1, Ht2, Hv2, Hi2. clear Ht1 Hv1 Hi1 Ht2 Hv2 Hi2.
    split; [cbn [length]; lia|].
    destruct (decide (sentence_valid (filter is_token_line g))) as [Hv|Hv].
    + left. split; [done|].
      rewrite filter_cons_True, filter_cons_False, !filter_nil by (done || tauto).
      cbn [length]. lia.
    + right. split; [done|].
      rewrite filter_cons_False, filter_cons_True, !filter_nil by done.
      cbn [length]. lia.
Qed.

Lemma counters_consistent_witness :
  let before :=
    (clean_conllu_file (file_of_lines (scenario_A ++ [""])) false).1 in
  let after :=
    (clean_conllu_file (file_of_lines ((scenario_A ++ [""]) ++ scenario_B)) false).1 in
  total_sentences after = total_sentences before + 1
  ∧ (sentence_valid (filter is_token_line scenario_B)
       ∧ valid_sentences after = valid_sentences before + 1
       ∧ invalid_sentences after = invalid_sentences before
     ∨ ¬ sentence_valid (filter is_token_line scenario_B)
       ∧ valid_sentences after = valid_sentences before
       ∧ invalid_sentences after = invalid_sentences before + 1).
Proof.
  assert (Forall clean_line ((scenario_A ++ [""]) ++ scenario_B)) as H1.
  { unfold scenario_A, scenario_B.
    repeat (apply Forall_app; split);
      repeat apply Forall_cons_2; [..|apply Forall_nil_2]; by vm_compute. }
  assert (scenario_A ++ [""] = []
          ∨ ∃ init b, scenario_A ++ [""] = init ++ [b] ∧ is_blank b) as H2.
  { right. exists scenario_A, "". split; [done|]. split; by vm_compute. }
  assert (Forall (λ l, ¬ is_blank l) scenario_B) as H3.
  { unfold scenario_B.
    repeat apply Forall_cons_2; [..|apply Forall_nil_2];
      intros [Ha Hb]; vm_compute in Ha, Hb; done. }
  assert (filter is_token_line scenario_B ≠ []) as H4 by by vm_compute.
  exact (proj2 counters_consistent (scenario_A ++ [""]) scenario_B false
           H1 H2 H3 H4).
Defined.

Lemma feed_pre pre : ∀ out comments c,
  Forall (λ l, ¬ is_token_line l) pre →
  foldl full_step ((out, comments, []), c) pre
  = ((out, comments ++ filter is_comment pre, []), c).
Proof.
  induction pre as [|l pre IH]; intros out comments c Hpre; cbn [foldl].
  - by rewrite app_nil_r.
  - apply Forall_cons in Hpre as [Hl Hpre].
    unfold full_step at 2, view_step. cbn [fst snd].
    destruct (Py.startswith "#" l) eqn:Hh.
    + rewrite IH by done. rewrite filter_cons_True by done.
      by rewrite <- app_assoc.
    + assert (Py.strip l = "") as Hb.
      { destruct (decide (Py.strip l = "")); [done|]. by destruct Hl. }
      rewrite bool_decide_eq_true_2 by done. rewrite IH by done.
      rewrite filter_cons_False; [done|]. unfold is_comment. by rewrite Hh.
Qed.

Lemma feed_body body : ∀ out comments sentence c,
  Forall (λ l, ¬ is_blank l) body →
  foldl full_step ((out, comments, sentence), c) body
  = ((out, comments ++ filter is_comment body,
      sentence ++ filter is_token_line body), c).
Proof.
  induction body as [|l body IH]; intros out comments sentence c Hbody; cbn [foldl].
  - by rewrite !app_nil_r.
  - apply Forall_cons in Hbody as [Hl Hbody].
    unfold full_step at 2, view_step. cbn [fst snd].
    destruct (Py.startswith "#" l) eqn:Hh.
    + rewrite IH by done. rewrite filter_cons_True by done.
      rewrite (filter_cons_False is_token_line);
        [by rewrite <- app_assoc|].
      intros [Hf _]. congruence.
    + assert (Py.strip l ≠ "") as Hb by (intros Hb; by apply Hl).
      rewrite bool_decide_eq_false_2 by done. rewrite IH by done.
      rewrite filter_cons_False by (unfold is_comment; congruence).
      rewrite (filter_cons_True is_token_line) by done.
      by rewrite <- app_assoc.
Qed.

Lemma filter_no_token pre :
  Forall (λ l, ¬ is_token_line l) pre → filter is_token_line pre = [].
Proof. intros H. apply filter_none. by apply Forall_forall. Qed.

Lemma feed_segment seg out c :
  segment seg →
  foldl full_step ((out, [], []), c) (seg ++ [""])
  = ((emit out (filter is_comment seg) (filter is_token_line seg), [], []),
     count_sentence (filter is_token_line seg) c).
Proof.
  intros (pre & body & -> & Hpre & Hbody & Htok & _).
  rewrite !foldl_app, feed_pre, feed_body by done. cbn [foldl app].
  rewrite !filter_app, (filter_no_token pre) by done. cbn [app].
  unfold full_step, view_step. cbn [fst snd Py.startswith].
  rewrite bool_decide_eq_true_2 by done.
  by destruct (filter is_token_line body).
Qed.

Lemma emit_passes out seg :
  emit out (filter is_comment seg) (filter is_token_line seg)
  = if decide (passes seg) then out +:+ file_of_lines (written seg) else out.
Proof.
  case_decide as Hp.
  - by rewrite emit_valid.
  - apply emit_invalid. by apply not_true_is_false.
Qed.

Lemma feed_segments segs : ∀ out total valid invalid,
  Forall segment segs →
  foldl full_step ((out, [], []), (total, valid, invalid))
    (segs ≫= (λ seg, seg ++ [""]))
  = ((out +:+ file_of_lines (filter passes segs ≫= written), [], []),
     (total + Z.of_nat (length segs),
      valid + Z.of_nat (length (filter passes segs)),
      invalid + (Z.of_nat (length segs)
                 - Z.of_nat (length (filter passes segs))))).
Proof.
  induction segs as [|seg segs IH]; intros out total valid invalid Hsegs.
  - cbn. rewrite string_app_nil_r. f_equal. f_equal; [f_equal|]; lia.
  - apply Forall_cons in Hsegs as [Hseg Hsegs].
    rewrite bind_cons, foldl_app, feed_segment by done.
    rewrite emit_passes. unfold count_sentence.
    destruct (decide (passes seg)) as [Hp|Hp].
    + rewrite filter_cons_True by done. unfold passes in Hp. rewrite Hp.
      rewrite IH by done. rewrite bind_cons, file_of_lines_app, string_app_assoc.
      cbn [length]. f_equal. f_equal; [f_equal|]; lia.
    + rewrite filter_cons_False by done.
      apply not_true_is_false in Hp. rewrite Hp.
      rewrite IH by done. cbn [length]. f_equal. f_equal; [f_equal|]; lia.
Qed.

Lemma segment_clean seg : segment seg → Forall clean_line seg.
Proof. by intros (? & ? & _ & _ & _ & _ & ?). Qed.

(** X11.  What the driver does, sentence by sentence.  On a file made of
    segments, each ended by a blank line (a segment: lines that are no
    token lines, then non-blank lines with at least one token line), and
    of final lines without a token line, the output is, for the segments
    whose token lines pass validation and in their order, the comments of
    the segment, then its token lines, then one blank line.  A sentence
    that fails is dropped with its comments; comments before a blank line
    or among the token lines are written before the token lines; final
    comments are dropped.  [total] counts the segments, [valid] those that
    pass, [invalid] the others. *)
Theorem driver_by_segments segs tail verbose :
  Forall segment segs →
  Forall (λ l, ¬ is_token_line l) tail → Forall clean_line tail →
  let r := clean_conllu_file
             (file_of_lines ((segs ≫= (λ seg, seg ++ [""])) ++ tail)) verbose in
  outfile (r.1) = file_of_lines (filter passes segs ≫= written)
  ∧ total_sentences (r.1) = Z.of_nat (length segs)
  ∧ valid_sentences (r.1) = Z.of_nat (length (filter passes segs))
  ∧ invalid_sentences (r.1)
    = Z.of_nat (length segs) - Z.of_nat (length (filter passes segs)).
Proof.
  intros Hsegs Htail Hclean.
  pose proof (clean_full
    (file_of_lines ((segs ≫= (λ seg, seg ++ [""])) ++ tail)) verbose) as Hfull.
  cbn zeta in *. rewrite stream_lines_file_of_lines in Hfull.
  2:{ apply Forall_app. split; [|done]. apply Forall_bind.
      eapply Forall_impl; [exact Hsegs|]. intros seg Hseg.
      apply Forall_app. split; [by apply segment_clean|].
      by apply Forall_singleton. }
  rewrite foldl_app, feed_segments, feed_pre in Hfull by done.
  unfold full_end in Hfull. cbn [fst snd view_end] in Hfull.
  unfold tally in Hfull. injection Hfull as -> -> -> ->.
  rewrite string_app_nil_l. repeat split; lia.
Qed.

Lemma driver_by_segments_witness :
  outfile (clean_conllu_file
             (file_of_lines ((["# a"; ""] ++ scenario_A ++ [""])
                             ++ (["# b"] ++ scenario_B ++ [""]) ++ ["# c"])) false).1
  = file_of_lines (["# a"] ++ scenario_A ++ [""]).
Proof.
  assert (segment (["# a"; ""] ++ scenario_A)) as HA.
  { exists ["# a"; ""], scenario_A. split; [done|].
    split; [|split; [|split]].
    - repeat apply Forall_cons_2; [..|apply Forall_nil_2];
        intros [H1 H2]; vm_compute in H1, H2; done.
    - repeat apply Forall_cons_2; [..|apply Forall_nil_2];
        intros [H1 H2]; vm_compute in H1, H2; done.
    - by vm_compute.
    - repeat apply Forall_cons_2; [..|apply Forall_nil_2]; by vm_compute. }
  assert (segment (["# b"] ++ scenario_B)) as HB.
  { exists ["# b"], scenario_B. split; [done|].
    split; [|split; [|split]].
    - repeat apply Forall_cons_2; [..|apply Forall_nil_2];
        intros [H1 H2]; vm_compute in H1, H2; done.
    - repeat apply Forall_cons_2; [..|apply Forall_nil_2];
        intros [H1 H2]; vm_compute in H1, H2; done.
    - by vm_compute.
    - repeat apply Forall_cons_2; [..|apply Forall_nil_2]; by vm_compute. }
  pose proof (driver_by_segments
    [["# a"; ""] ++ scenario_A; ["# b"] ++ scenario_B] ["# c"] false) as H.
  cbn zeta in H. destruct H as (Hout & _).
  - by repeat constructor.
  - apply Forall_singleton. intros [H1 H2]. vm_compute in H1. done.
  - apply Forall_singleton. by vm_compute.
  - etrans; [|etrans; [exact Hout|]]; by vm_compute.
Defined.

Lemma full_end_blank s : full_end (full_step s "") = full_end s.
Proof.
  destruct s as [[[out comments] sentence] c].
  unfold full_step, full_end, view_step, view_end.
  cbn [fst snd Py.startswith]. rewrite bool_decide_eq_true_2 by done.
  by destruct sentence.
Qed.

Lemma readlines_unterminated last :
  last ≠ "" → Py.contains Py.nl last = false → readlines last = [last].
Proof.
  induction last as [|a r IH]; [done|]. intros _. cbn [Py.contains readlines].
  case_decide; [done|]. intros Hr.
  destruct r as [|b r']; [done|]. by rewrite IH.
Qed.

Lemma stream_lines_unterminated init last :
  Forall clean_line init → clean_line last → last ≠ "" →
  stream_lines (file_of_lines init +:+ last) = init ++ [last].
Proof.
  intros Hinit [Hnl Hcr] Hne. unfold stream_lines.
  rewrite universal_newlines_id.
  2:{ rewrite contains_app, Hcr, file_of_lines_no_cr; done. }
  induction Hinit as [|l ls [Hl _] _ IH].
  - cbn [app map]. rewrite string_app_nil_l, readlines_unterminated by done.
    cbn [map]. by rewrite rstrip_nl_id.
  - rewrite file_of_lines_cons, string_app_assoc, string_app_cons.
    rewrite readlines_terminated by done.
    cbn [map app]. by rewrite IH, rstrip_nl_terminated.
Qed.

(** X12.  The end of the stream is handled like a blank line: the output
    file and the counters are the same whether the last line of the file
    is followed by a blank line, by its line feed alone, or by nothing. *)
Theorem final_blank_line_optional init last verbose :
  Forall clean_line init → clean_line last → last ≠ "" →
  outfile (clean_conllu_file (file_of_lines (init ++ [last; ""])) verbose).1
  = outfile (clean_conllu_file (file_of_lines (init ++ [last])) verbose).1
  ∧ tally (clean_conllu_file (file_of_lines (init ++ [last; ""])) verbose).1
    = tally (clean_conllu_file (file_of_lines (init ++ [last])) verbose).1
  ∧ outfile (clean_conllu_file (file_of_lines init +:+ last) verbose).1
    = outfile (clean_conllu_file (file_of_lines (init ++ [last])) verbose).1
  ∧ tally (clean_conllu_file (file_of_lines init +:+ last) verbose).1
    = tally (clean_conllu_file (file_of_lines (init ++ [last])) verbose).1.
Proof.
  intros Hinit Hlast Hne.
  assert (Forall clean_line (init ++ [last])) as Hall.
  { apply Forall_app. split; [done|]. by apply Forall_singleton. }
  pose proof (clean_full (file_of_lines (init ++ [last])) verbose) as Hp.
  pose proof (clean_full (file_of_lines (init ++ [last; ""])) verbose) as Hb.
  pose proof (clean_full (file_of_lines init +:+ last) verbose) as Hc.
  cbn zeta in *.
  remember (clean_conllu_file (file_of_lines (init ++ [last])) verbose) as plain
    eqn:Eplain.
  remember (clean_conllu_file (file_of_lines (init ++ [last; ""])) verbose) as blank
    eqn:Eblank.
  remember (clean_conllu_file (file_of_lines init +:+ last) verbose) as cut
    eqn:Ecut.
  clear Eplain Eblank Ecut.
  rewrite stream_lines_file_of_lines in Hp by done.
  rewrite stream_lines_unterminated in Hc by done.
  rewrite stream_lines_file_of_lines in Hb.
  2:{ change (init ++ [last; ""]) with (init ++ [last] ++ [""]).
      rewrite app_assoc. apply Forall_app. split; [done|]. by apply Forall_singleton. }
  change (init ++ [last; ""]) with (init ++ [last] ++ [""]) in Hb.
  rewrite app_assoc, foldl_app in Hb. cbn [foldl] in Hb.
  rewrite full_end_blank in Hb. rewrite <- Hp in Hb, Hc.
  pose proof (f_equal fst Hb) as Hbo. pose proof (f_equal snd Hb) as Hbt.
  pose proof (f_equal fst Hc) as Hco. pose proof (f_equal snd Hc) as Hct.
  cbn [fst snd] in Hbo, Hbt, Hco, Hct. done.
Qed.

Lemma final_blank_line_optional_witness :
  outfile (clean_conllu_file (file_of_lines (["# a"] ++ ["x"; ""])) false).1
  = outfile (clean_conllu_file (file_of_lines (["# a"] ++ ["x"])) false).1.
Proof.
  assert (Forall clean_line ["# a"]) as H1
    by (apply Forall_singleton; by vm_compute).
  assert (clean_line "x") as H2 by by vm_compute.
  assert ("x" ≠ "") as H3 by done.
  exact (proj1 (final_blank_line_optional ["# a"] "x" false H1 H2 H3)).
Defined.

Lemma kept_from_emit L out comments sentence blocks :
  Forall clean_line L →
  Forall block_ok blocks →
  Forall (λ b, Forall (λ l, l ∈ L) (b.1 ++ b.2)) blocks →
  out = file_of_lines (blocks ≫= block_lines) →
  Forall is_comment comments → Forall is_token_line sentence → sentence ≠ [] →
  Forall (λ l, l ∈ L) (comments ++ sentence) →
  (validate_sentence __init__ sentence None).1 = true →
  let blocks' := blocks ++ [(comments, sentence)] in
  Forall block_ok blocks'
  ∧ Forall (λ b, Forall (λ l, l ∈ L) (b.1 ++ b.2)) blocks'
  ∧ emit out comments sentence = file_of_lines (blocks' ≫= block_lines).
Proof.
  intros HL Hok Hin -> Hc Ht Hne HinL Hv. cbn zeta.
  rewrite !Forall_app, !Forall_singleton. repeat split; try done.
  - cbn [fst snd]. eapply Forall_impl; [exact HinL|].
    intros l Hl. by eapply Forall_forall in HL.
  - by rewrite emit_valid, bind_app, bind_singleton, file_of_lines_app.
Qed.

Lemma kept_from_step L s line :
  Forall clean_line L → line ∈ L → kept_from L s → kept_from L (full_step s line).
Proof.
  intros HL Hline (blocks & Hok & Hin & Hout & Hvalid & Hc & Ht & Hpend).
  destruct s as [[[out comments] sentence] [[total valid] invalid]].
  cbn [fst snd] in *. apply Forall_app in Hpend as [Hpc Hpt].
  unfold full_step, view_step. cbn [fst snd].
  destruct (Py.startswith "#" line) eqn:Hh.
  - exists blocks. cbn [fst snd].
    assert (is_comment line) by done.
    rewrite !Forall_app, !Forall_singleton. tauto.
  - case_bool_decide as Hb.
    + destruct sentence as [|t ts] eqn:Hs.
      * exists blocks. cbn [fst snd]. rewrite app_nil_r. tauto.
      * rewrite <- Hs in *. unfold count_sentence.
        destruct ((validate_sentence __init__ sentence None).1) eqn:Hv.
        -- destruct (kept_from_emit L out comments sentence blocks)
             as (Hok' & Hin' & Hemit); try done.
           { by rewrite Hs. } { by apply Forall_app. }
           exists (blocks ++ [(comments, sentence)]). cbn [fst snd app].
           rewrite length_app. cbn [length].
           repeat split; try done; try constructor. lia.
        -- exists blocks. cbn [fst snd app]. rewrite emit_invalid by done.
           repeat split; try done; constructor.
    + exists blocks. cbn [fst snd].
      assert (is_token_line line) by done.
      rewrite !Forall_app, !Forall_singleton. tauto.
Qed.

Lemma kept_from_feed L ls : ∀ s,
  Forall clean_line L → Forall (λ l, l ∈ L) ls → kept_from L s →
  kept_from L (foldl full_step s ls).
Proof.
  induction ls as [|l ls IH]; intros s HL Hls Hs; [done|].
  apply Forall_cons in Hls as [Hl Hls]. cbn [foldl].
  apply IH; [done..|]. by apply kept_from_step.
Qed.

(** The output, as sentences of lines of the input, counted by [valid]. *)
Lemma output_blocks input_file verbose :
  let r := clean_conllu_file input_file verbose in
  ∃ blocks,
    Forall block_ok blocks
    ∧ Forall (λ b, Forall (λ l, l ∈ stream_lines input_file) (b.1 ++ b.2)) blocks
    ∧ outfile (r.1) = file_of_lines (blocks ≫= block_lines)
    ∧ valid_sentences (r.1) = Z.of_nat (length blocks).
Proof.
  cbn zeta. pose proof (clean_full input_file verbose) as Hfull. cbn zeta in Hfull.
  pose proof (stream_lines_clean input_file) as HL.
  assert (kept_from (stream_lines input_file)
            (foldl full_step (("", [], []), (0, 0, 0)) (stream_lines input_file)))
    as (blocks & Hok & Hin & Hout & Hvalid & Hc & Ht & Hpend).
  { apply kept_from_feed; [done|by apply Forall_forall|].
    exists []. cbn. repeat split; constructor. }
  destruct (foldl full_step _ _) as [[[out comments] sentence] [[total valid] invalid]].
  cbn [fst snd] in *. unfold full_end, view_end in Hfull. cbn [fst snd] in Hfull.
  unfold tally in Hfull. apply Forall_app in Hpend as [Hpc Hpt].
  destruct sentence as [|t ts] eqn:Hs.
  - injection Hfull as -> _ -> _. by exists blocks.
  - rewrite <- Hs in *. unfold count_sentence in Hfull.
    destruct ((validate_sentence __init__ sentence None).1) eqn:Hv.
    + injection Hfull as Ho _ Hva _.
      destruct (kept_from_emit (stream_lines input_file) out comments sentence blocks)
        as (Hok' & Hin' & Hemit); try done.
      { by rewrite Hs. } { by apply Forall_app. }
      exists (blocks ++ [(comments, sentence)]).
      rewrite length_app. cbn [length].
      repeat split; try done; [congruence|lia].
    + injection Hfull as Ho _ Hva _. rewrite emit_invalid in Ho by done.
      exists blocks. repeat split; try done; congruence.
Qed.

Lemma block_lines_blank_count b :
  block_ok b → length (filter (λ l, l = "") (block_lines b)) = 1%nat.
Proof.
  destruct b as [comments sentence]. intros (Hc & Ht & _). cbn [fst snd] in *.
  unfold block_lines. cbn [fst snd]. rewrite !filter_app.
  rewrite (filter_none _ comments), (filter_none _ sentence); [done|..].
  - intros l Hl ->. eapply Forall_forall in Ht; [|done]. by destruct Ht as [_ Hs].
  - intros l Hl ->. eapply Forall_forall in Hc; [|done]. done.
Qed.

(** X13.  The summary agrees with the file written: [valid] is the number
    of sentences in the output file, that is, of its empty lines. *)
Theorem valid_counts_output input_file verbose :
  let r := clean_conllu_file input_file verbose in
  valid_sentences (r.1)
  = Z.of_nat (length (filter (λ l, l = "") (stream_lines (outfile (r.1))))).
Proof.
  cbn zeta.
  destruct (output_blocks input_file verbose) as (blocks & Hok & _ & -> & ->).
  rewrite stream_lines_file_of_lines by by apply block_lines_clean.
  f_equal. induction Hok as [|b blocks Hb _ IH]; [done|].
  rewrite bind_cons, filter_app, length_app, block_lines_blank_count by done.
  cbn [length]. by rewrite IH.
Qed.

(** X14.  Cleaning invents no text: every line of the output file is a
    line of the input file or the empty line that ends a sentence. *)
Theorem output_lines_from_input input_file verbose :
  Forall (λ l, l = "" ∨ l ∈ stream_lines input_file)
    (stream_lines (output_file input_file verbose)).
Proof.
  unfold output_file.
  destruct (output_blocks input_file verbose) as (blocks & Hok & Hin & -> & _).
  rewrite stream_lines_file_of_lines by by apply block_lines_clean.
  apply Forall_bind. eapply Forall_impl; [exact Hin|].
  intros [comments sentence] Hb. unfold block_lines, compose. cbn [fst snd] in *.
  rewrite app_assoc. apply Forall_app. split.
  - eapply Forall_impl; [exact Hb|]. by right.
  - apply Forall_singleton. by left.
Qed.

(** * The assembly script *)

Example split_point_values :
  map Assemble.split_point [0; 1; 2; 9; 10; 11; 19; 20; 100; 1000; 12345;
                            9007199254740993; 100000000000000000000]
  = map Some [0; 0; 1; 8; 9; 9; 17; 18; 90; 900; 11110;
              8106479329266893; 90000000000000000000].
Proof. by vm_compute. Qed.

Lemma lstrip_nil s : Py.lstrip s = "" ↔ Assemble.all_space s = true.
Proof.
  induction s as [|a r IH]; [done|]. cbn [Py.lstrip Assemble.all_space].
  destruct (Py.isspace a); [by rewrite IH|]. split; done.
Qed.

Lemma rstrip_nil s : Py.rstrip s = "" ↔ Assemble.all_space s = true.
Proof.
  induction s as [|a r IH]; [done|]. cbn [Py.rstrip Assemble.all_space].
  destruct (Py.rstrip r) eqn:Hr.
  - destruct (Py.isspace a); [|split; done]. cbn [andb]. by rewrite <- IH.
  - split; [done|]. intros [_ Hs]%andb_prop. by apply IH in Hs.
Qed.

Lemma lstrip_head s a r : Py.lstrip s = String a r → Py.isspace a = false.
Proof.
  induction s as [|b t IH]; [done|]. cbn [Py.lstrip].
  destruct (Py.isspace b) eqn:Hb; [done|]. by intros [= <- _].
Qed.

Lemma strip_nil s : Py.strip s = "" ↔ Assemble.all_space s = true.
Proof.
  unfold Py.strip. split.
  - intros Hr%rstrip_nil. apply lstrip_nil.
    destruct (Py.lstrip s) as [|a r] eqn:Hl; [done|].
    apply lstrip_head in Hl. cbn [Assemble.all_space] in Hr.
    by rewrite Hl in Hr.
  - intros Hs%lstrip_nil. by rewrite Hs.
Qed.

Lemma isspace_nl : Py.isspace Py.nl = true.
Proof. done. Qed.

Lemma isspace_cr : Py.isspace Py.cr = true.
Proof. done. Qed.

Lemma universal_newlines_all_space s :
  Assemble.all_space (universal_newlines s) = Assemble.all_space s.
Proof.
  enough (Assemble.all_space (universal_newlines s) = Assemble.all_space s
          ∧ ∀ a, Assemble.all_space (universal_newlines (String a s))
                 = Assemble.all_space (String a s)) as [? _] by done.
  induction s as [|b r [IH1 IH2]].
  - split; [done|]. intros a. cbn [universal_newlines].
    destruct (decide (a = Py.cr)) as [->|]; done.
  - split; [apply IH2|]. intros a.
    change (universal_newlines (String a (String b r)))
      with (if decide (a = Py.cr)
            then if decide (b = Py.nl)
                 then String Py.nl (universal_newlines r)
                 else String Py.nl (universal_newlines (String b r))
            else String a (universal_newlines (String b r))).
    destruct (decide (a = Py.cr)) as [->|]; [destruct (decide (b = Py.nl)) as [->|]|];
      cbn [Assemble.all_space]; rewrite ?isspace_nl, ?isspace_cr, ?IH1, ?IH2; done.
Qed.

Lemma split_blank_cons2 a b r :
  Assemble.split_blank (String a (String b r))
  = if decide (a = Py.nl ∧ b = Py.nl) then "" :: Assemble.split_blank r
    else match Assemble.split_blank (String b r) with
         | f :: fs => String a f :: fs
         | [] => [String a ""]
         end.
Proof. reflexivity. Qed.

Lemma split_blank_not_nil s : Assemble.split_blank s ≠ [].
Proof.
  destruct s as [|a [|b r]]; try done. rewrite split_blank_cons2.
  case_decide; [done|]. by destruct (Assemble.split_blank (String b r)).
Qed.

(** X15.  [read_conllu] returns no sentence exactly for a file of white
    space only (the empty file among them); from any other file it returns
    at least one block. *)
Theorem read_conllu_empty file :
  Assemble.read_conllu file = [] ↔ Assemble.all_space file = true.
Proof.
  unfold Assemble.read_conllu. cbn zeta.
  rewrite <- universal_newlines_all_space, <- strip_nil.
  case_decide as Hs; [done|]. split; [|done].
  intros Hnil. by apply split_blank_not_nil in Hnil.
Qed.

Lemma write_conllu_app_out sentences : ∀ out,
  foldl (λ out s, out +:+ (Py.strip s +:+ String Py.nl (String Py.nl ""))) out
    sentences
  = out +:+ Assemble.write_conllu sentences.
Proof.
  unfold Assemble.write_conllu.
  induction sentences as [|s l IH]; intros out; cbn [foldl].
  - by rewrite string_app_nil_r.
  - rewrite IH, (IH ("" +:+ _)). by rewrite string_app_nil_l, string_app_assoc.
Qed.

Lemma write_conllu_cons s l :
  Assemble.write_conllu (s :: l)
  = Py.strip s +:+ String Py.nl (String Py.nl (Assemble.write_conllu l)).
Proof.
  unfold Assemble.write_conllu at 1. cbn [foldl].
  rewrite write_conllu_app_out, string_app_nil_l, string_app_assoc.
  by rewrite !string_app_cons, string_app_nil_l.
Qed.

Lemma write_conllu_app l1 l2 :
  Assemble.write_conllu (l1 ++ l2)
  = Assemble.write_conllu l1 +:+ Assemble.write_conllu l2.
Proof.
  induction l1 as [|s l1 IH]; [done|].
  cbn [app]. rewrite !write_conllu_cons, IH.
  by rewrite string_app_assoc, !string_app_cons.
Qed.

Lemma rstrip_rstrip s : Py.rstrip (Py.rstrip s) = Py.rstrip s.
Proof.
  induction s as [|a r IH]; [done|]. cbn [Py.rstrip].
  destruct (Py.rstrip r) as [|b r'] eqn:Hr.
  - destruct (Py.isspace a) eqn:Ha; [done|]. cbn [Py.rstrip]. by rewrite Ha.
  - change (Py.rstrip (String a (String b r')))
      with (match Py.rstrip (String b r') with
            | EmptyString => if Py.isspace a then "" else String a ""
            | r'' => String a r''
            end).
    by rewrite IH.
Qed.

Lemma lstrip_id a r : Py.isspace a = false → Py.lstrip (String a r) = String a r.
Proof. intros Ha. cbn [Py.lstrip]. by rewrite Ha. Qed.

Lemma rstrip_head a r : Py.isspace a = false → ∃ r', Py.rstrip (String a r) = String a r'.
Proof.
  intros Ha. cbn [Py.rstrip]. destruct (Py.rstrip r); [|by eexists].
  rewrite Ha. by eexists.
Qed.

(** What [strip] returns has no white space at its ends. *)
Lemma strip_stripped s :
  Py.rstrip (Py.strip s) = Py.strip s
  ∧ (∀ a r, Py.strip s = String a r → Py.isspace a = false).
Proof.
  unfold Py.strip. split; [apply rstrip_rstrip|].
  intros a r Hs. destruct (Py.lstrip s) as [|b t] eqn:Hl; [done|].
  apply lstrip_head in Hl. destruct (rstrip_head b t Hl) as [r' Hr].
  rewrite Hr in Hs. by injection Hs as <- _.
Qed.

Lemma rstrip_app_space u w :
  Assemble.all_space w = true → Py.rstrip (u +:+ w) = Py.rstrip u.
Proof.
  intros Hw. induction u as [|a u IH].
  - rewrite string_app_nil_l. by apply rstrip_nil.
  - rewrite string_app_cons. cbn [Py.rstrip]. by rewrite IH.
Qed.

Lemma rstrip_app_stripped u t :
  t ≠ "" → Py.rstrip t = t → Py.rstrip (u +:+ t) = u +:+ t.
Proof.
  intros Hne Ht. induction u as [|a u IH]; [done|].
  rewrite string_app_cons. cbn [Py.rstrip]. rewrite IH.
  destruct (u +:+ t) eqn:Hut; [|done].
  destruct u; [by rewrite string_app_nil_l in Hut|done].
Qed.

Lemma rstrip_last_not_nl a : Py.rstrip (String a "") = String a "" → a ≠ Py.nl.
Proof. cbn. intros Ha ->. by rewrite isspace_nl in Ha. Qed.

Lemma rstrip_tail a b r :
  Py.rstrip (String a (String b r)) = String a (String b r) →
  Py.rstrip (String b r) = String b r.
Proof.
  change (Py.rstrip (String a (String b r)))
    with (match Py.rstrip (String b r) with
          | EmptyString => if Py.isspace a then "" else String a ""
          | r' => String a r'
          end).
  destruct (Py.rstrip (String b r)); [by destruct (Py.isspace a)|].
  by intros [= -> ->].
Qed.

Lemma split_blank_single_tail a b r :
  Assemble.split_blank (String a (String b r)) = [String a (String b r)] →
  ¬ (a = Py.nl ∧ b = Py.nl)
  ∧ Assemble.split_blank (String b r) = [String b r].
Proof.
  change (Assemble.split_blank (String a (String b r)))
    with (if decide (a = Py.nl ∧ b = Py.nl) then "" :: Assemble.split_blank r
          else match Assemble.split_blank (String b r) with
               | f :: fs => String a f :: fs
               | [] => [String a ""]
               end).
  case_decide as Hd; [done|]. split; [done|].
  destruct (Assemble.split_blank (String b r)) as [|f fs]; [done|].
  by injection H as -> ->.
Qed.

(** A block followed by the separator is split off. *)
Lemma split_blank_sep t rest :
  Assemble.split_blank t = [t] → Py.rstrip t = t →
  Assemble.split_blank (t +:+ String Py.nl (String Py.nl rest))
  = t :: Assemble.split_blank rest.
Proof.
  induction t as [|a r IH]; intros Hs Hr.
  - rewrite string_app_nil_l. cbn [Assemble.split_blank]. by rewrite decide_True.
  - destruct r as [|b r'].
    + apply rstrip_last_not_nl in Hr.
      rewrite string_app_cons, string_app_nil_l.
      change (Assemble.split_blank (String a (String Py.nl (String Py.nl rest))))
        with (if decide (a = Py.nl ∧ Py.nl = Py.nl)
              then "" :: Assemble.split_blank (String Py.nl rest)
              else match Assemble.split_blank (String Py.nl (String Py.nl rest)) with
                   | f :: fs => String a f :: fs
                   | [] => [String a ""]
                   end).
      rewrite decide_False by (by intros [? _]).
      cbn [Assemble.split_blank]. by rewrite decide_True.
    + apply split_blank_single_tail in Hs as [Hab Hs]. apply rstrip_tail in Hr.
      specialize (IH Hs Hr). rewrite !string_app_cons in *.
      change (Assemble.split_blank
                (String a (String b (r' +:+ String Py.nl (String Py.nl rest)))))
        with (if decide (a = Py.nl ∧ b = Py.nl)
              then "" :: Assemble.split_blank
                           (r' +:+ String Py.nl (String Py.nl rest))
              else match Assemble.split_blank
                           (String b (r' +:+ String Py.nl (String Py.nl rest))) with
                   | f :: fs => String a f :: fs
                   | [] => [String a ""]
                   end).
      rewrite decide_False by done. by rewrite IH.
Qed.

Lemma write_conllu_no_cr sentences :
  Forall (λ s, Assemble.block_text (Py.strip s)) sentences →
  Py.contains Py.cr (Assemble.write_conllu sentences) = false.
Proof.
  induction 1 as [|s l (_ & Hcr & _) _ IH]; [done|].
  rewrite write_conllu_cons, contains_app, Hcr. cbn [Py.contains orb].
  by rewrite !decide_False by apply nl_ne_cr.
Qed.

(** The text written, without its last two line feeds, and its blocks. *)
Lemma write_conllu_body s l :
  Forall (λ s, Assemble.block_text (Py.strip s)) (s :: l) →
  ∃ body, Assemble.write_conllu (s :: l) = body +:+ String Py.nl (String Py.nl "")
    ∧ body ≠ "" ∧ Py.rstrip body = body
    ∧ (∀ a r, Py.strip s = String a r → ∃ r', body = String a r')
    ∧ Assemble.split_blank body = map Py.strip (s :: l).
Proof.
  revert s. induction l as [|s' l IH]; intros s Hall.
  - apply Forall_singleton in Hall as (Hne & _ & Hsplit).
    exists (Py.strip s). rewrite write_conllu_cons.
    split; [done|]. split; [done|]. split; [apply strip_stripped|].
    split; [by eauto|done].
  - apply Forall_cons in Hall as [(Hne & _ & Hsplit) Hall].
    destruct (IH s' Hall) as (body & Hw & Hbne & Hbr & _ & Hbs).
    exists (Py.strip s +:+ String Py.nl (String Py.nl body)).
    split; [|split; [|split; [|split]]].
    + rewrite write_conllu_cons, Hw.
      by rewrite string_app_assoc, !string_app_cons.
    + destruct (Py.strip s); done.
    + apply (rstrip_app_stripped (Py.strip s +:+ String Py.nl (String Py.nl "")))
        in Hbr; [|done].
      by rewrite string_app_assoc, !string_app_cons, string_app_nil_l in Hbr.
    + intros a r Hs. rewrite Hs, string_app_cons. by eexists.
    + rewrite split_blank_sep, Hbs; [done..|apply strip_stripped].
Qed.

(** X16.  [read_conllu] inverts [write_conllu]: for at least one sentence,
    when each sentence, stripped, is not empty and has neither carriage
    return nor blank line inside, reading the text written gives the
    stripped sentences, in order. *)
Theorem read_write_conllu sentences :
  sentences ≠ [] →
  Forall (λ s, Assemble.block_text (Py.strip s)) sentences →
  Assemble.read_conllu (Assemble.write_conllu sentences) = map Py.strip sentences.
Proof.
  intros Hne Hall. destruct sentences as [|s l]; [done|].
  unfold Assemble.read_conllu. cbn zeta.
  rewrite universal_newlines_id by by apply write_conllu_no_cr.
  destruct (write_conllu_body s l Hall) as (body & -> & Hbne & Hbr & Hhead & Hbs).
  assert (Py.strip (body +:+ String Py.nl (String Py.nl "")) = body) as ->.
  { unfold Py.strip.
    apply Forall_cons in Hall as [(Hsne & _) _].
    destruct (Py.strip s) as [|a r] eqn:Hs; [done|].
    destruct (Hhead a r eq_refl) as [r' ->].
    rewrite string_app_cons, lstrip_id, <- string_app_cons.
    - by rewrite rstrip_app_space.
    - by eapply strip_stripped. }
  by rewrite decide_False.
Qed.

Lemma read_write_conllu_witness :
  Assemble.read_conllu (Assemble.write_conllu [" a "; "b"]) = ["a"; "b"].
Proof.
  refine (read_write_conllu [" a "; "b"] _ _); [done|].
  repeat apply Forall_cons_2; [..|apply Forall_nil_2]; by vm_compute.
Defined.

(** X17.  The split loses nothing: with a shuffle that permutes its list,
    the train and dev sentences together are, up to order, the sentences
    loaded, and the two texts written are, one after the other, the text of
    all the shuffled sentences. *)
Theorem split_keeps_sentences shuffle all_sentences train_sents dev_sents :
  (∀ l, shuffle l ≡ₚ l) →
  Assemble.split_sentences shuffle all_sentences = Some (train_sents, dev_sents) →
  train_sents ++ dev_sents ≡ₚ all_sentences
  ∧ (length train_sents + length dev_sents)%nat = length all_sentences
  ∧ Assemble.split_and_write shuffle all_sentences
    = Some (Assemble.write_conllu train_sents, Assemble.write_conllu dev_sents)
  ∧ Assemble.write_conllu train_sents +:+ Assemble.write_conllu dev_sents
    = Assemble.write_conllu (shuffle all_sentences).
Proof.
  intros Hperm Hsplit. unfold Assemble.split_and_write. rewrite Hsplit.
  unfold Assemble.split_sentences in Hsplit. cbn zeta in Hsplit.
  destruct (Assemble.split_point _) as [sp|]; [|done].
  injection Hsplit as <- <-.
  rewrite <- write_conllu_app, take_drop, <- length_app, take_drop.
  repeat split; [apply Hperm|]. by rewrite Hperm.
Qed.

Lemma split_keeps_sentences_witness :
  Assemble.split_and_write reverse ["a"; "b"; "c"]
  = Some (Assemble.write_conllu ["c"; "b"], Assemble.write_conllu ["a"]).
Proof.
  assert (∀ l : list string, reverse l ≡ₚ l) as Hperm
    by (intros l; apply reverse_Permutation).
  assert (Assemble.split_sentences reverse ["a"; "b"; "c"]
          = Some (["c"; "b"], ["a"])) as Hsplit by (vm_compute; reflexivity).
  exact (proj1 (proj2 (proj2 (split_keeps_sentences reverse ["a"; "b"; "c"]
                                ["c"; "b"] ["a"] Hperm Hsplit)))).
Defined.
